(** * bt_helper: scanning for and pairing with Bluetooth devices over D-Bus

    A shallow embedding of [bt_helper.py].  The module drives the BlueZ
    service through D-Bus proxies and blocks on a GLib main loop.  The
    embedding keeps the Python control flow (loops, [try]/[except],
    generators driven to exhaustion) and makes the two things the code cannot
    see explicit:

    - the remote service is an oracle ([Remote]) answering every bus request
      as a function of the history of the session;
    - the main loop consumes an [inbox] of events (signals, due timeouts,
      replies to asynchronous calls) and runs the registered callbacks.

    Every observable action of the program (bus requests, log records, loop
    entry and exit) is appended to a [trace].

    Conventions of the model:

    - property values are integers, booleans and strings;
    - [GetManagedObjects] always answers, with an object tree that may differ
      from one request to the next;
    - a proxy object is known by its object path, and creating one is silent;
    - the loop handles one event per iteration; an exception leaving a
      timeout callback is reported and the loop goes on, as the GObject
      binding does;
    - when the inbox is exhausted and nobody has asked the loop to quit, the
      call that runs the loop is [Blocked]. *)

From Stdlib Require Import List String Ascii ZArith Bool Lia Arith Permutation.
Import ListNotations.
Open Scope string_scope.
Open Scope Z_scope.
Open Scope list_scope.

Set Implicit Arguments.

(** ** Values carried by D-Bus properties *)

(** dbus-python hands properties back as [dbus.UInt32], [dbus.Boolean],
    [dbus.String], ... which are subclasses of [int], [int] and [str]. *)
Inductive value : Type :=
| VInt (z : Z)
| VBool (b : bool)
| VStr (s : string).

Definition as_int (v : value) : option Z :=
  match v with
  | VInt z => Some z
  | VBool b => Some (if b then 1 else 0)
  | VStr _ => None
  end.

(** Python's [==]: booleans compare as the integers 0 and 1, a string is
    equal to strings only. *)
Definition py_eq (a b : value) : bool :=
  match a, b with
  | VStr s, VStr t => String.eqb s t
  | VStr _, _ => false
  | _, VStr _ => false
  | _, _ => match as_int a, as_int b with
            | Some x, Some y => Z.eqb x y
            | _, _ => false
            end
  end.

(** Python's [!=]. *)
Definition py_ne (a b : value) : bool := negb (py_eq a b).

(** Truth value of an object in a condition. *)
Definition truthy (v : value) : bool :=
  match v with
  | VInt z => negb (Z.eqb z 0)
  | VBool b => b
  | VStr s => negb (String.eqb s EmptyString)
  end.

(** ** Exceptions and dictionaries *)

Inductive exn : Type :=
| KeyError (key : string)
| DBusException (msg : string)
| AttributeError (name : string).

(** A Python [dict] with string keys, in insertion order.  A lookup takes the
    first binding of the key. *)
Definition dict (V : Type) : Type := list (string * V).

Fixpoint dict_get {V : Type} (d : dict V) (k : string) : option V :=
  match d with
  | [] => None
  | (k', v) :: d' => if String.eqb k k' then Some v else dict_get d' k
  end.

(** [d[k]] *)
Definition dict_index {V : Type} (d : dict V) (k : string) : exn + V :=
  match dict_get d k with
  | Some v => inr v
  | None => inl (KeyError k)
  end.

(** Iterating over a dict walks its keys. *)
Definition dict_keys {V : Type} (d : dict V) : list string := map fst d.

Definition dict_wf {V : Type} (d : dict V) : Prop := NoDup (dict_keys d).

(** Property mapping of one interface, interfaces of one object, the object
    tree answered by [GetManagedObjects]. *)
Definition Props : Type := dict value.
Definition Ifaces : Type := dict Props.
Definition Objects : Type := dict Ifaces.

(** ** Module constants *)

Definition IFACE : string := "org.bluez.Adapter1".
Definition ADAPTER_IFACE : string := "org.bluez.Adapter1".
Definition DEVICE_IFACE : string := "org.bluez.Device1".

Definition BT_ANY : Z := 0.
(** [int('0x2540', 16)] *)
Definition BT_KEYBOARD : Z := 9536.

(** ** The device filter of [get_bt_devices]

    The body of the [try] block, for one device whose property mapping [obj]
    has been read.  [inr true]: the device is yielded; [inr false]: the loop
    [continue]s; [inl e]: the exception [e] leaves the block. *)

(** [for filter in filters: if obj[filter] != filters[filter]: rejected =
    True; break].  The answer is the final value of [rejected]. *)
Fixpoint filters_rejected (obj : Props) (filters : dict value)
         (keys : list string) : exn + bool :=
  match keys with
  | [] => inr false
  | k :: keys' =>
      match dict_index obj k with
      | inl e => inl e
      | inr v =>
          match dict_index filters k with
          | inl e => inl e
          | inr fv =>
              if py_ne v fv then inr true
              else filters_rejected obj filters keys'
          end
      end
  end.

Definition filter_body (obj : Props) (category : Z) (filters : dict value)
  : exn + bool :=
  let check_filters :=
    match filters_rejected obj filters (dict_keys filters) with
    | inl e => inl e
    | inr rejected => if rejected then inr false else inr true
    end in
  if negb (Z.eqb category BT_ANY) then
    match dict_index obj "Class" with
    | inl e => inl e
    | inr c => if py_ne c (VInt category) then inr false else check_filters
    end
  else check_filters.

(** ** Observable actions *)

(** Blocking method calls made through [dbus.Interface] proxies. *)
Inductive Method : Type :=
| StartDiscovery
| StopDiscovery
| Connect
| Disconnect.

Inductive Level : Type := INFO | WARNING | ERROR.

(** One constructor per logging statement of the module. *)
Inductive LogRecord : Type :=
| PropertyNotFound (key path : string)
| PoweringOn (name : string)
| DeviceAlreadyPowered
| PoweredOn
| FailedToPowerOn (msg : string)
| FailedToConnect (msg : string)
| SuccessfullyPaired (device : string)
| PairingFailed (device error : string)
| PropertyChanged (path : string) (changed : Props)
| AddedInterfaces (interfaces : Ifaces) (path : string).

(** The module-level functions registered as signal receivers. *)
Inductive SignalHandler : Type :=
| h_interfaces_added
| h_properties_changed.

Record Receiver : Type := mkReceiver {
  rc_handler : SignalHandler;
  rc_interface : string;
  rc_signal : string;
  rc_arg0 : option string
}.

Inductive Action : Type :=
| AGetManagedObjects
| ACall (path iface : string) (m : Method)
| APairAsync (path : string)
| AGet (path iface name : string)
| ASet (path iface name : string) (v : value)
| AAddSignalReceiver (rc : Receiver)
| ATimeoutAdd (seconds : Z) (id : nat)
| ALoopRun
| ALoopQuit
| ALog (lvl : Level) (rec : LogRecord)
| AYield (path : string)
| ACallbackRaised (e : exn).

Definition Trace : Type := list Action.

(** ** The remote service

    Each answer may depend on everything that happened before the request.
    [None] from [method_fault] or [Set_fault] means the call returned; [Some
    msg] means it raised [DBusException] with that message. *)
Record Remote : Type := mkRemote {
  GetManagedObjects : Trace -> Objects;
  method_fault : Trace -> string -> string -> Method -> option string;
  Get : Trace -> string -> string -> string -> string + value;
  Set_fault : Trace -> string -> string -> string -> value -> option string
}.

(** ** What the main loop can be woken by *)
Inductive LoopEvent : Type :=
| SigInterfacesAdded (path : string) (interfaces : Ifaces)
| SigPropertiesChanged (interface : string) (changed : Props)
                       (invalidated : list string) (path : string)
| TimeoutDue (id : nat)
| MethodReturn (path : string)
| MethodError (path error : string).


(** ** State of the process

    - [inbox]: the events the main loop will be woken by, in order;
    - [receivers]: the signal matches added to the bus connection;
    - [timers]: the armed timeout sources (the module only ever arms
      [_scan_timeout]);
    - [pending]: devices with a [Pair] call awaiting its reply, whose
      handlers are that device's [_pair_ok] and [_pair_error];
    - [running]: the [is_running] flag of the [GObject.MainLoop]. *)
Record World : Type := mkWorld {
  trace : Trace;
  inbox : list LoopEvent;
  receivers : list Receiver;
  timers : list nat;
  next_source_id : nat;
  pending : list string;
  running : bool
}.

Definition emit_w (a : Action) (w : World) : World :=
  mkWorld (trace w ++ [a]) (inbox w) (receivers w) (timers w)
          (next_source_id w) (pending w) (running w).

Definition set_inbox (q : list LoopEvent) (w : World) : World :=
  mkWorld (trace w) q (receivers w) (timers w)
          (next_source_id w) (pending w) (running w).

Definition set_running (b : bool) (w : World) : World :=
  mkWorld (trace w) (inbox w) (receivers w) (timers w)
          (next_source_id w) (pending w) b.

Definition set_timers (ts : list nat) (w : World) : World :=
  mkWorld (trace w) (inbox w) (receivers w) ts
          (next_source_id w) (pending w) (running w).

Definition set_pending (ps : list string) (w : World) : World :=
  mkWorld (trace w) (inbox w) (receivers w) (timers w)
          (next_source_id w) ps (running w).

(** ** Computations: state, exceptions, and a loop that never wakes up *)

Inductive outcome (A : Type) : Type :=
| Ret (a : A)
| Raise (e : exn)
| Blocked.
Arguments Raise {A} e.
Arguments Blocked {A}.

Definition M (A : Type) : Type := World -> outcome A * World.

Definition ret {A : Type} (a : A) : M A := fun w => (Ret a, w).

Definition raise {A : Type} (e : exn) : M A := fun w => (Raise e, w).

Definition bind {A B : Type} (c : M A) (k : A -> M B) : M B :=
  fun w =>
    match c w with
    | (Ret a, w') => k a w'
    | (Raise e, w') => (Raise e, w')
    | (Blocked, w') => (Blocked, w')
    end.

Notation "x <- c ;; k" := (bind c (fun x => k))
  (at level 61, c at next level, right associativity).
Notation "c ;; k" := (bind c (fun _ => k))
  (at level 61, right associativity).

(** [try: c except ...: handler] *)
Definition try_except {A : Type} (c : M A) (handler : exn -> M A) : M A :=
  fun w =>
    match c w with
    | (Raise e, w') => handler e w'
    | r => r
    end.

Definition lift {A : Type} (x : exn + A) : M A :=
  match x with
  | inl e => raise e
  | inr a => ret a
  end.

Definition emit (a : Action) : M unit := fun w => (Ret tt, emit_w a w).

Definition log (lvl : Level) (rec : LogRecord) : M unit := emit (ALog lvl rec).

(** [for x in xs: body] *)
Fixpoint for_each {A : Type} (xs : list A) (body : A -> M unit) : M unit :=
  match xs with
  | [] => ret tt
  | x :: xs' => body x ;; for_each xs' body
  end.

(** The two wrapper classes hold a proxy, which is known by its object
    path, and the manager. *)
Record BtAdapter : Type := mkBtAdapter { adapter_path : string }.
Record BtDevice : Type := mkBtDevice { device_path : string }.

(** What a call of the public interface hands back to its caller.  The
    functions of the module fall off their end, which is [PyNone]. *)
Inductive retval : Type :=
| PyNone
| PyDevices (devices : list BtDevice)
| PySuccess
| PyFailure (reason : string).

(** ** Bus primitives *)

Definition call (r : Remote) (path iface : string) (m : Method) : M unit :=
  fun w =>
    match method_fault r (trace w) path iface m with
    | None => (Ret tt, emit_w (ACall path iface m) w)
    | Some msg => (Raise (DBusException msg), emit_w (ACall path iface m) w)
    end.

Definition Properties_Get (r : Remote) (path iface name : string) : M value :=
  fun w =>
    match Get r (trace w) path iface name with
    | inr v => (Ret v, emit_w (AGet path iface name) w)
    | inl msg => (Raise (DBusException msg), emit_w (AGet path iface name) w)
    end.

Definition Properties_Set (r : Remote) (path iface name : string) (v : value)
  : M unit :=
  fun w =>
    match Set_fault r (trace w) path iface name v with
    | None => (Ret tt, emit_w (ASet path iface name v) w)
    | Some msg =>
        (Raise (DBusException msg), emit_w (ASet path iface name v) w)
    end.

(** [self._manager.GetManagedObjects()].  The request is taken to be
    answered: a refusal, which would raise [DBusException] at this point
    before anything else is done, is outside the model. *)
Definition ObjectManager_GetManagedObjects (r : Remote) : M Objects :=
  fun w => (Ret (GetManagedObjects r (trace w)), emit_w AGetManagedObjects w).

Definition add_signal_receiver (rc : Receiver) : M unit :=
  fun w =>
    (Ret tt,
     mkWorld (trace w ++ [AAddSignalReceiver rc]) (inbox w)
             (receivers w ++ [rc]) (timers w) (next_source_id w)
             (pending w) (running w)).

(** [GObject.timeout_add_seconds(timeout, self._scan_timeout)] *)
Definition timeout_add_seconds (seconds : Z) : M nat :=
  fun w =>
    let id := next_source_id w in
    (Ret id,
     mkWorld (trace w ++ [ATimeoutAdd seconds id]) (inbox w) (receivers w)
             (timers w ++ [id]) (S id) (pending w) (running w)).

(** [self._if.Pair(reply_handler=self._pair_ok,
    error_handler=self._pair_error)]: the call is queued and returns at
    once. *)
Definition Pair_async (path : string) : M unit :=
  fun w =>
    (Ret tt,
     mkWorld (trace w ++ [APairAsync path]) (inbox w) (receivers w)
             (timers w) (next_source_id w) (pending w ++ [path])
             (running w)).

(** [self._main_loop.quit()] *)
Definition main_loop_quit : M unit :=
  fun w => (Ret tt, set_running false (emit_w ALoopQuit w)).

(** ** class BtDbusManager *)

(** [ifaces.get(iface_name)] in a condition: the interface must be there and
    its property mapping must not be empty. *)
Definition implements (iface_name : string) (ifaces : Ifaces) : bool :=
  match dict_get ifaces iface_name with
  | Some [] => false
  | Some (_ :: _) => true
  | None => false
  end.

(** The generator asks for the object tree once, when it is first advanced,
    and then walks that answer.  A proxy is known by its path. *)
Definition paths_by_iface (iface_name : string) (objects : Objects)
  : list string :=
  map fst (filter (fun item => implements iface_name (snd item)) objects).

Definition _get_objects_by_iface (r : Remote) (iface_name : string)
  : M (list string) :=
  objects <- ObjectManager_GetManagedObjects r ;;
  ret (paths_by_iface iface_name objects).

Definition get_bt_adapters (r : Remote) : M (list BtAdapter) :=
  adapters <- _get_objects_by_iface r ADAPTER_IFACE ;;
  ret (map mkBtAdapter adapters).

Definition get_object_by_path (r : Remote) (path : string) : M Ifaces :=
  objects <- ObjectManager_GetManagedObjects r ;;
  lift (dict_index objects path).

(** The [try] statement of [get_bt_devices] for one device: [true] when the
    device is yielded, [false] when the loop goes on without it. *)
Definition filter_device (device : string) (obj : Props) (category : Z)
           (filters : dict value) : M bool :=
  try_except
    (lift (filter_body obj category filters))
    (fun exc =>
       match exc with
       | KeyError k => log INFO (PropertyNotFound k device) ;; ret false
       | _ => raise exc
       end).

(** The loop of [get_bt_devices] over the enumerated device proxies, driven
    until the generator is exhausted or raises; every [yield] is recorded. *)
Fixpoint get_bt_devices_loop (r : Remote) (category : Z)
         (filters : dict value) (devices : list string) : M (list BtDevice) :=
  match devices with
  | [] => ret []
  | device :: devices' =>
      ifaces <- get_object_by_path r device ;;
      obj <- lift (dict_index ifaces DEVICE_IFACE) ;;
      yielded <- filter_device device obj category filters ;;
      if (yielded : bool) then
        emit (AYield device) ;;
        rest <- get_bt_devices_loop r category filters devices' ;;
        ret (mkBtDevice device :: rest)
      else get_bt_devices_loop r category filters devices'
  end.

Definition get_bt_devices (r : Remote) (category : Z) (filters : dict value)
  : M (list BtDevice) :=
  devices <- _get_objects_by_iface r DEVICE_IFACE ;;
  get_bt_devices_loop r category filters devices.

Definition resume : M unit := main_loop_quit.

Definition _scan_timeout (r : Remote) : M unit :=
  adapters <- _get_objects_by_iface r ADAPTER_IFACE ;;
  for_each adapters (fun adapter => call r adapter ADAPTER_IFACE StopDiscovery) ;;
  main_loop_quit.

(** ** Callbacks of class BtDevice and the signal handlers *)

(** [self._if.object_name] is not an attribute of the proxy; the record is
    identified here by the device path. *)
Definition _pair_ok (self : BtDevice) : M unit :=
  log INFO (SuccessfullyPaired (device_path self)) ;;
  resume.

Definition _pair_error (self : BtDevice) (error : string) : M unit :=
  log WARNING (PairingFailed (device_path self) error) ;;
  resume.

Definition properties_changed (interface : string) (changed : Props)
           (invalidated : list string) (path : string) : M unit :=
  log INFO (PropertyChanged path changed).

Definition interfaces_added (path : string) (interfaces : Ifaces) : M unit :=
  log INFO (AddedInterfaces interfaces path).

(** ** The main loop *)

Definition arg0_matches (want : option string) (arg0 : string) : bool :=
  match want with
  | None => true
  | Some a => String.eqb a arg0
  end.

Definition receiver_matches (ev : LoopEvent) (rc : Receiver) : bool :=
  match ev with
  | SigInterfacesAdded path _ =>
      String.eqb (rc_interface rc) "org.freedesktop.DBus.ObjectManager"
      && String.eqb (rc_signal rc) "InterfacesAdded"
      && arg0_matches (rc_arg0 rc) path
  | SigPropertiesChanged interface _ _ _ =>
      String.eqb (rc_interface rc) "org.freedesktop.DBus.Properties"
      && String.eqb (rc_signal rc) "PropertiesChanged"
      && arg0_matches (rc_arg0 rc) interface
  | _ => false
  end.

(** The module registers each handler for its own signal only. *)
Definition deliver (ev : LoopEvent) (rc : Receiver) : M unit :=
  match rc_handler rc, ev with
  | h_interfaces_added, SigInterfacesAdded path interfaces =>
      interfaces_added path interfaces
  | h_properties_changed, SigPropertiesChanged interface changed inv path =>
      properties_changed interface changed inv path
  | _, _ => ret tt
  end.

Fixpoint remove_first (x : string) (l : list string) : list string :=
  match l with
  | [] => []
  | y :: l' => if String.eqb x y then l' else y :: remove_first x l'
  end.

Definition mem_string (x : string) (l : list string) : bool :=
  existsb (String.eqb x) l.

Definition mem_nat (x : nat) (l : list nat) : bool := existsb (Nat.eqb x) l.

Definition disarm (id : nat) (w : World) : World :=
  set_timers (filter (fun i => negb (Nat.eqb id i)) (timers w)) w.

Definition settle (path : string) (w : World) : World :=
  set_pending (remove_first path (pending w)) w.

(** One iteration: run what the event wakes up.  An exception leaving a
    timeout callback is printed by the binding and the loop goes on; the
    source is removed in both cases, as [_scan_timeout] returns [None]. *)
Definition dispatch (r : Remote) (ev : LoopEvent) : M unit :=
  fun w =>
    match ev with
    | TimeoutDue id =>
        if mem_nat id (timers w) then
          match _scan_timeout r w with
          | (Raise e, w') => (Ret tt, disarm id (emit_w (ACallbackRaised e) w'))
          | (o, w') => (o, disarm id w')
          end
        else (Ret tt, w)
    | MethodReturn path =>
        if mem_string path (pending w)
        then _pair_ok (mkBtDevice path) (settle path w)
        else (Ret tt, w)
    | MethodError path error =>
        if mem_string path (pending w)
        then _pair_error (mkBtDevice path) error (settle path w)
        else (Ret tt, w)
    | _ =>
        for_each (filter (receiver_matches ev) (receivers w)) (deliver ev) w
    end.

(** [GObject.MainLoop.run]: iterate until [quit] clears the flag.  When
    nothing is left to wake the loop up it blocks for ever. *)
Fixpoint loop_iterate (r : Remote) (events : list LoopEvent) (w : World)
  : outcome unit * World :=
  match events with
  | [] => (Blocked, set_inbox [] w)
  | ev :: events' =>
      match dispatch r ev (set_inbox events' w) with
      | (Ret _, w') =>
          if running w' then loop_iterate r events' w' else (Ret tt, w')
      | (o, w') => (o, w')
      end
  end.

Definition main_loop_run (r : Remote) : M unit :=
  fun w => loop_iterate r (inbox w) (set_running true (emit_w ALoopRun w)).

Definition wait (r : Remote) : M unit := main_loop_run r.

(** ** [BtDbusManager.scan] *)

(** The two subscriptions of [scan]: [interfaces_added] for
    [InterfacesAdded], and [properties_changed] for [PropertiesChanged] with
    [arg0 = "org.bluez.Device1"]. *)
Definition rc_interfaces_added : Receiver :=
  mkReceiver h_interfaces_added
             "org.freedesktop.DBus.ObjectManager" "InterfacesAdded" None.

Definition rc_properties_changed : Receiver :=
  mkReceiver h_properties_changed
             "org.freedesktop.DBus.Properties" "PropertiesChanged"
             (Some "org.bluez.Device1").

(** The body of the loop over the adapters in [scan]. *)
Definition restart_discovery (r : Remote) (adapter : string) : M unit :=
  try_except
    (call r adapter ADAPTER_IFACE StopDiscovery)
    (fun exc =>
       match exc with
       | DBusException _ => ret tt
       | _ => raise exc
       end) ;;
  call r adapter ADAPTER_IFACE StartDiscovery.

Definition scan (r : Remote) (timeout : Z) : M retval :=
  add_signal_receiver rc_interfaces_added ;;
  add_signal_receiver rc_properties_changed ;;
  adapters <- _get_objects_by_iface r ADAPTER_IFACE ;;
  for_each adapters (restart_discovery r) ;;
  _ <- timeout_add_seconds timeout ;;
  main_loop_run r ;;
  ret PyNone.

(** ** class BtAdapter *)

(** [path.split('/')[-1]] *)
Fixpoint last_segment_from (acc s : string) : string :=
  match s with
  | EmptyString => acc
  | String c s' =>
      if Ascii.eqb c "/"%char then last_segment_from EmptyString s'
      else last_segment_from (acc ++ String c EmptyString)%string s'
  end.

Definition last_segment (path : string) : string :=
  last_segment_from EmptyString path.

Definition set_bool_prop (r : Remote) (self : BtAdapter) (prop_name : string)
           (v : bool) : M unit :=
  Properties_Set r (adapter_path self) IFACE prop_name (VBool v).

Definition ensure_powered (r : Remote) (self : BtAdapter) : M retval :=
  powered <- Properties_Get r (adapter_path self) IFACE "Powered" ;;
  log INFO (PoweringOn (last_segment (adapter_path self))) ;;
  if truthy powered then
    log INFO DeviceAlreadyPowered ;;
    ret PyNone
  else
    try_except
      (set_bool_prop r self "Powered" true ;;
       log INFO PoweredOn)
      (fun exc =>
         match exc with
         | DBusException msg => log ERROR (FailedToPowerOn msg)
         | _ => raise (AttributeError "get_dbus_message")
         end) ;;
    ret PyNone.

(** ** class BtDevice *)

Definition pair (r : Remote) (self : BtDevice) : M retval :=
  Pair_async (device_path self) ;;
  wait r ;;
  try_except
    (call r (device_path self) DEVICE_IFACE Connect)
    (fun exc =>
       match exc with
       | DBusException msg => log ERROR (FailedToConnect msg)
       | _ => raise exc
       end) ;;
  ret PyNone.

Definition unpair (r : Remote) (self : BtDevice) : M retval :=
  call r (device_path self) DEVICE_IFACE Disconnect ;;
  ret PyNone.

(** ** Reading traces and worlds *)

Definition extend (actions : Trace) (w : World) : World :=
  mkWorld (trace w ++ actions) (inbox w) (receivers w) (timers w)
          (next_source_id w) (pending w) (running w).

Definition count (p : Action -> bool) (t : Trace) : nat :=
  List.length (filter p t).

Definition is_power_set (a : Action) : bool :=
  match a with
  | ASet _ _ name _ => String.eqb name "Powered"
  | _ => false
  end.

Definition is_loop_run (a : Action) : bool :=
  match a with ALoopRun => true | _ => false end.

Definition is_loop_quit (a : Action) : bool :=
  match a with ALoopQuit => true | _ => false end.

Definition is_pair_success (a : Action) : bool :=
  match a with ALog _ (SuccessfullyPaired _) => true | _ => false end.

Definition is_pair_failure (a : Action) : bool :=
  match a with ALog _ (PairingFailed _ _) => true | _ => false end.


Definition is_yield (a : Action) : bool :=
  match a with AYield _ => true | _ => false end.

Definition is_signal_record (a : Action) : bool :=
  match a with
  | ALog _ (AddedInterfaces _ _) => true
  | ALog _ (PropertyChanged _ _) => true
  | _ => false
  end.

(** Events that wake no callback other than the signal handlers, given the
    armed timers and the pending calls: signals, a timeout that is not
    armed, a reply nobody waits for. *)
Definition inert (armed : list nat) (awaited : list string) (ev : LoopEvent)
  : bool :=
  match ev with
  | SigInterfacesAdded _ _ => true
  | SigPropertiesChanged _ _ _ _ => true
  | TimeoutDue id => negb (mem_nat id armed)
  | MethodReturn path => negb (mem_string path awaited)
  | MethodError path _ => negb (mem_string path awaited)
  end.

(** What one receiver logs when a signal reaches it. *)
Definition delivery (ev : LoopEvent) (rc : Receiver) : Trace :=
  match rc_handler rc, ev with
  | h_interfaces_added, SigInterfacesAdded path interfaces =>
      [ALog INFO (AddedInterfaces interfaces path)]
  | h_properties_changed, SigPropertiesChanged _ changed _ path =>
      [ALog INFO (PropertyChanged path changed)]
  | _, _ => []
  end.

(** What a run of signals leaves in the log, given the receivers. *)
Definition signal_log (rcs : list Receiver) (signals : list LoopEvent)
  : Trace :=
  flat_map (fun ev => flat_map (delivery ev) (filter (receiver_matches ev) rcs))
           signals.

(** The log record a reply to [Pair] on [self] produces. *)
Definition reply_record (self : BtDevice) (ev : LoopEvent) : option Action :=
  match ev with
  | MethodReturn path =>
      if String.eqb path (device_path self)
      then Some (ALog INFO (SuccessfullyPaired path)) else None
  | MethodError path error =>
      if String.eqb path (device_path self)
      then Some (ALog WARNING (PairingFailed path error)) else None
  | _ => None
  end.

(** What the [try] statement around [Connect()] adds to the trace [t]. *)
Definition connect_actions (r : Remote) (t : Trace) (path : string) : Trace :=
  ACall path DEVICE_IFACE Connect ::
  match method_fault r t path DEVICE_IFACE Connect with
  | None => []
  | Some msg => [ALog ERROR (FailedToConnect msg)]
  end.

(** What a scan that runs to its timeout adds to the trace: the two
    subscriptions, stop and start on every adapter enumerated then, the
    timer, the loop with its signals, and the timer callback stopping every
    adapter enumerated at that moment. *)
Definition restart_actions (adapters : list string) : Trace :=
  flat_map (fun a => [ACall a ADAPTER_IFACE StopDiscovery;
                      ACall a ADAPTER_IFACE StartDiscovery]) adapters.

Definition stop_actions (adapters : list string) : Trace :=
  map (fun a => ACall a ADAPTER_IFACE StopDiscovery) adapters.

Definition scan_start_actions (r : Remote) (timeout : Z) (w : World)
           (signals : list LoopEvent) : Trace :=
  let subscribed := [AAddSignalReceiver rc_interfaces_added;
                     AAddSignalReceiver rc_properties_changed] in
  subscribed ++ [AGetManagedObjects]
    ++ restart_actions
         (paths_by_iface ADAPTER_IFACE
            (GetManagedObjects r (trace w ++ subscribed)))
    ++ [ATimeoutAdd timeout (next_source_id w); ALoopRun]
    ++ signal_log (receivers w ++ [rc_interfaces_added; rc_properties_changed])
                  signals.

Definition scan_actions (r : Remote) (timeout : Z) (w : World)
           (signals : list LoopEvent) : Trace :=
  let started := scan_start_actions r timeout w signals in
  started ++ [AGetManagedObjects]
    ++ stop_actions
         (paths_by_iface ADAPTER_IFACE
            (GetManagedObjects r (trace w ++ started)))
    ++ [ALoopQuit].

(** The devices of an object tree that pass the filter. *)
Definition device_passes (category : Z) (filters : dict value)
           (item : string * Ifaces) : bool :=
  match dict_get (snd item) DEVICE_IFACE with
  | Some (p :: props) =>
      match filter_body (p :: props) category filters with
      | inr true => true
      | _ => false
      end
  | _ => false
  end.

Definition matching_devices (category : Z) (filters : dict value)
           (objects : Objects) : list BtDevice :=
  map (fun item => mkBtDevice (fst item))
      (filter (device_passes category filters) objects).

(** ** Scenarios *)

Definition hci0 : string := "/org/bluez/hci0".
Definition hci1 : string := "/org/bluez/hci1".
Definition dev_A : string := "/org/bluez/hci0/dev_AA_BB_CC_00_00_01".
Definition dev_B : string := "/org/bluez/hci0/dev_AA_BB_CC_00_00_02".

Definition adapter_props (powered : bool) : Props :=
  [("Address", VStr "00:1A:7D:DA:71:13"); ("Powered", VBool powered)].

Definition keyboard_props : Props :=
  [("Name", VStr "K380"); ("Class", VInt BT_KEYBOARD); ("Paired", VBool false)].

Definition unclassified_props : Props :=
  [("Name", VStr "Tag"); ("Class", VInt 0); ("Paired", VBool false)].

Definition one_adapter : Objects :=
  [("/org/bluez", [("org.bluez.AgentManager1", [])]);
   (hci0, [(ADAPTER_IFACE, adapter_props true)])].

Definition two_adapters : Objects :=
  one_adapter ++ [(hci1, [(ADAPTER_IFACE, adapter_props true)])].

Definition with_devices (adapters : Objects) (devices : list (string * Props))
  : Objects :=
  adapters ++ map (fun d => (fst d, [(DEVICE_IFACE, snd d)])) devices.

(** A newly created manager: nothing subscribed, nothing armed. *)
Definition fresh (events : list LoopEvent) : World :=
  mkWorld [] events [] [] 1 [] false.

Definition read_property (objects : Objects) (path iface name : string)
  : string + value :=
  match dict_get objects path with
  | Some ifaces =>
      match dict_get ifaces iface with
      | Some props =>
          match dict_get props name with
          | Some v => inr v
          | None => inl "org.freedesktop.DBus.Error.InvalidArgs"
          end
      | None => inl "org.freedesktop.DBus.Error.InvalidArgs"
      end
  | None => inl "org.freedesktop.DBus.Error.UnknownObject"
  end.

(** A service whose object tree never changes and that accepts every
    request. *)
Definition steady (objects : Objects) : Remote :=
  mkRemote (fun _ => objects)
           (fun _ _ _ _ => None)
           (fun _ => read_property objects)
           (fun _ _ _ _ _ => None).

(** [dev_A] is listed by the first enumeration and gone afterwards. *)
Definition vanishing_remote : Remote :=
  mkRemote
    (fun t =>
       match t with
       | [] => with_devices one_adapter
                 [(dev_A, keyboard_props); (dev_B, keyboard_props)]
       | _ => with_devices one_adapter [(dev_B, keyboard_props)]
       end)
    (fun _ _ _ _ => None)
    (fun _ _ _ _ => inl "org.freedesktop.DBus.Error.UnknownObject")
    (fun _ _ _ _ _ => None).

(** [StopDiscovery] is refused on [hci0]. *)
Definition stop_failing_remote : Remote :=
  mkRemote
    (fun _ => two_adapters)
    (fun _ path _ m =>
       match m with
       | StopDiscovery =>
           if String.eqb path hci0 then Some "org.bluez.Error.Failed" else None
       | _ => None
       end)
    (fun _ => read_property two_adapters)
    (fun _ _ _ _ _ => None).

(** [StartDiscovery] is refused on [hci0]. *)
Definition start_failing_remote : Remote :=
  mkRemote
    (fun _ => two_adapters)
    (fun _ path _ m =>
       match m with
       | StartDiscovery =>
           if String.eqb path hci0 then Some "org.bluez.Error.NotReady" else None
       | _ => None
       end)
    (fun _ => read_property two_adapters)
    (fun _ _ _ _ _ => None).

(** The radio is blocked: the adapter reports unpowered and refuses to be
    powered on. *)
Definition blocked_remote : Remote :=
  mkRemote
    (fun _ => [(hci0, [(ADAPTER_IFACE, adapter_props false)])])
    (fun _ _ _ _ => None)
    (fun _ _ _ _ => inr (VBool false))
    (fun _ _ _ _ _ => Some "org.bluez.Error.Blocked").

(** The adapter is off and powers on as soon as it is asked to. *)
Definition obedient_remote : Remote :=
  mkRemote
    (fun _ => [(hci0, [(ADAPTER_IFACE, adapter_props false)])])
    (fun _ _ _ _ => None)
    (fun t _ _ _ => inr (VBool (existsb is_power_set t)))
    (fun _ _ _ _ _ => None).

(** A catalog with a keyboard and a device of class 0. *)
Definition mixed_catalog : Objects :=
  with_devices one_adapter [(dev_A, keyboard_props); (dev_B, unclassified_props)].

Definition keyboard_catalog : Objects :=
  with_devices one_adapter [(dev_A, keyboard_props)].

(** Two signals as BlueZ emits them during discovery and pairing. *)
Definition keyboard_added : LoopEvent :=
  SigInterfacesAdded dev_A [(DEVICE_IFACE, keyboard_props)].

Definition paired_changed : LoopEvent :=
  SigPropertiesChanged DEVICE_IFACE [("Paired", VBool true)] [] dev_A.

(** [StopDiscovery] is refused while no session loop has been entered, as
    no discovery is running then. *)
Definition idle_stop_remote (objects : Objects) : Remote :=
  mkRemote
    (fun _ => objects)
    (fun t _ _ m =>
       match m with
       | StopDiscovery =>
           if existsb is_loop_run t then None
           else Some "org.bluez.Error.Failed"
       | _ => None
       end)
    (fun _ => read_property objects)
    (fun _ _ _ _ _ => None).

(** [dev_A] is enumerated as a device and has lost its
    [org.bluez.Device1] interface when it is read. *)
Definition demoting_remote : Remote :=
  mkRemote
    (fun t =>
       match t with
       | [] => with_devices one_adapter [(dev_A, keyboard_props)]
       | _ => one_adapter
                ++ [(dev_A, [("org.freedesktop.DBus.Properties", [])])]
       end)
    (fun _ _ _ _ => None)
    (fun _ _ _ _ => inl "org.freedesktop.DBus.Error.UnknownObject")
    (fun _ _ _ _ _ => None).

(** Every request on a device is refused. *)
Definition refusing_remote (objects : Objects) : Remote :=
  mkRemote
    (fun _ => objects)
    (fun _ _ iface _ =>
       if String.eqb iface DEVICE_IFACE
       then Some "org.bluez.Error.Failed" else None)
    (fun _ => read_property objects)
    (fun _ _ _ _ _ => None).

(** ** Further readings of traces *)

Definition is_get_managed (a : Action) : bool :=
  match a with AGetManagedObjects => true | _ => false end.

(** The only things an enumeration does: ask for the object tree, yield,
    and report a missing property. *)
Definition is_enumeration_action (a : Action) : bool :=
  match a with
  | AGetManagedObjects => true
  | AYield _ => true
  | ALog INFO (PropertyNotFound _ _) => true
  | _ => false
  end.

(** Bus traffic that changes something at the remote end or in the loop. *)
Definition is_request (a : Action) : bool :=
  match a with
  | ACall _ _ _ => true
  | APairAsync _ => true
  | ASet _ _ _ _ => true
  | ALoopRun => true
  | ALoopQuit => true
  | _ => false
  end.

Fixpoint has_slash (s : string) : bool :=
  match s with
  | EmptyString => false
  | String c s' => Ascii.eqb c "/"%char || has_slash s'
  end.

(** ** The requests of one scan

    What it takes of the remote service for a scan to run to its timeout:
    every [StartDiscovery] it issues is accepted, and so is every
    [StopDiscovery] its timer callback issues.  Nothing is asked of the
    [StopDiscovery] requests that precede the starts. *)

(** The start requests of the loop over [adapters], issued from trace [t]
    on. *)
Fixpoint starts_accepted (r : Remote) (t : Trace) (adapters : list string)
  : Prop :=
  match adapters with
  | [] => True
  | a :: rest =>
      method_fault r (t ++ [ACall a ADAPTER_IFACE StopDiscovery])
                   a ADAPTER_IFACE StartDiscovery = None
      /\ starts_accepted r (t ++ restart_actions [a]) rest
  end.

(** The stop requests of the timer callback over [adapters], issued from
    trace [t] on. *)
Fixpoint stops_accepted (r : Remote) (t : Trace) (adapters : list string)
  : Prop :=
  match adapters with
  | [] => True
  | a :: rest =>
      method_fault r t a ADAPTER_IFACE StopDiscovery = None
      /\ stops_accepted r (t ++ [ACall a ADAPTER_IFACE StopDiscovery]) rest
  end.

Definition scan_accepted (r : Remote) (timeout : Z) (w : World)
           (signals : list LoopEvent) : Prop :=
  starts_accepted r
    (trace w ++ [AAddSignalReceiver rc_interfaces_added;
                 AAddSignalReceiver rc_properties_changed;
                 AGetManagedObjects])
    (paths_by_iface ADAPTER_IFACE
       (GetManagedObjects r
          (trace w ++ [AAddSignalReceiver rc_interfaces_added;
                       AAddSignalReceiver rc_properties_changed])))
  /\ stops_accepted r
       (trace w ++ scan_start_actions r timeout w signals
                ++ [AGetManagedObjects])
       (paths_by_iface ADAPTER_IFACE
          (GetManagedObjects r
             (trace w ++ scan_start_actions r timeout w signals))).

(** Whether discovery is running on an adapter after the requests of a
    trace: the last start or stop request on it decides. *)
Fixpoint discovering (path : string) (t : Trace) (state : bool) : bool :=
  match t with
  | [] => state
  | ACall p _ StartDiscovery :: t' =>
      discovering path t' (if String.eqb p path then true else state)
  | ACall p _ StopDiscovery :: t' =>
      discovering path t' (if String.eqb p path then false else state)
  | _ :: t' => discovering path t' state
  end.

(** A service that refuses to stop a discovery that is not running and to
    start one that is. *)
Definition bluez_like_remote (objects : Objects) : Remote :=
  mkRemote
    (fun _ => objects)
    (fun t path _ m =>
       match m with
       | StopDiscovery =>
           if discovering path t false then None
           else Some "org.bluez.Error.Failed"
       | StartDiscovery =>
           if discovering path t false
           then Some "org.bluez.Error.InProgress" else None
       | _ => None
       end)
    (fun _ => read_property objects)
    (fun _ _ _ _ _ => None).

(** A service on which the keyboard shows up once the session loop has been
    entered. *)
Definition appearing_remote : Remote :=
  mkRemote
    (fun t => if existsb is_loop_run t then keyboard_catalog else one_adapter)
    (fun _ _ _ _ => None)
    (fun _ => read_property keyboard_catalog)
    (fun _ _ _ _ _ => None).

(** * Properties *)

Unset Implicit Arguments.

(** ** Dictionaries and values *)

Lemma dict_get_in_keys :
  forall (V : Type) (d : dict V) (k : string) (v : V),
    dict_get d k = Some v -> In k (dict_keys d).
Proof.
  induction d as [|[k' v'] d IH]; intros k v H; simpl in *.
  - discriminate.
  - destruct (String.eqb_spec k k') as [->|Hne].
    + now left.
    + right. eapply IH; eassumption.
Qed.

Lemma in_keys_dict_get :
  forall (V : Type) (d : dict V) (k : string),
    In k (dict_keys d) -> exists v, dict_get d k = Some v.
Proof.
  induction d as [|[k' v'] d IH]; intros k H; simpl in *.
  - contradiction.
  - destruct (String.eqb_spec k k') as [->|Hne].
    + eauto.
    + destruct H as [H|H]; [congruence|]. now apply IH.
Qed.

Lemma dict_index_inr :
  forall (V : Type) (d : dict V) (k : string) (v : V),
    dict_index d k = inr v <-> dict_get d k = Some v.
Proof.
  intros V d k v. unfold dict_index.
  destruct (dict_get d k); split; intro H; inversion H; reflexivity.
Qed.

Lemma dict_index_inl :
  forall (V : Type) (d : dict V) (k : string) (e : exn),
    dict_index d k = inl e -> e = KeyError k /\ dict_get d k = None.
Proof.
  intros V d k e. unfold dict_index.
  destruct (dict_get d k); intro H; inversion H; auto.
Qed.

(** ** The filter loop *)

(** Only a [KeyError] can leave the loop over the filters. *)
Lemma filters_rejected_raises :
  forall obj filters keys e,
    filters_rejected obj filters keys = inl e -> exists k, e = KeyError k.
Proof.
  intros obj filters keys; induction keys as [|k keys IH]; intros e H.
  - discriminate.
  - simpl in H.
    destruct (dict_index obj k) eqn:Eo.
    + inversion H; subst. apply dict_index_inl in Eo as [-> _]. eauto.
    + destruct (dict_index filters k) eqn:Ef.
      * inversion H; subst. apply dict_index_inl in Ef as [-> _]. eauto.
      * destruct (py_ne v v0); [discriminate|]. now apply IH.
Qed.

(** The loop leaves [rejected] false exactly when every key it walks is
    bound in the device to a value equal to the filter's. *)
Lemma filters_rejected_false :
  forall obj filters keys,
    filters_rejected obj filters keys = inr false <->
    (forall k, In k keys ->
       exists x v, dict_get obj k = Some x /\ dict_get filters k = Some v
                   /\ py_eq x v = true).
Proof.
  intros obj filters keys; induction keys as [|k keys IH]; simpl.
  - split; [intros _ k []|reflexivity].
  - destruct (dict_index obj k) as [e|x] eqn:Eo.
    + apply dict_index_inl in Eo as [_ Eo].
      split; [discriminate|].
      intros H. destruct (H k (or_introl eq_refl)) as (x & v & Hx & _).
      congruence.
    + apply dict_index_inr in Eo.
      destruct (dict_index filters k) as [e|v] eqn:Ef.
      * apply dict_index_inl in Ef as [_ Ef].
        split; [discriminate|].
        intros H. destruct (H k (or_introl eq_refl)) as (x' & v & _ & Hv & _).
        congruence.
      * apply dict_index_inr in Ef.
        unfold py_ne. destruct (py_eq x v) eqn:Eq; simpl.
        -- rewrite IH. split.
           ++ intros H k' [<-|Hin]; eauto.
           ++ intros H k' Hin. apply H. now right.
        -- split; [discriminate|].
           intros H. destruct (H k (or_introl eq_refl)) as (x' & v' & Hx & Hv & E).
           congruence.
Qed.

Lemma filter_body_raises :
  forall obj category filters e,
    filter_body obj category filters = inl e -> exists k, e = KeyError k.
Proof.
  intros obj category filters e. unfold filter_body.
  assert (Hf : forall e',
             match filters_rejected obj filters (dict_keys filters) with
             | inl e0 => inl e0
             | inr rejected => if rejected then inr false else inr true
             end = inl e' -> exists k, e' = KeyError k).
  { intros e'. destruct (filters_rejected obj filters (dict_keys filters)) eqn:E.
    - intros H; inversion H; subst. eapply filters_rejected_raises; eassumption.
    - destruct b; discriminate. }
  destruct (negb (category =? BT_ANY)); [|apply Hf].
  destruct (dict_index obj "Class") eqn:Ec.
  - intros H; inversion H; subst. apply dict_index_inl in Ec as [-> _]. eauto.
  - destruct (py_ne v (VInt category)); [discriminate|apply Hf].
Qed.

Lemma filter_body_true :
  forall obj category filters,
    filter_body obj category filters = inr true <->
    (category = BT_ANY \/
     exists c, dict_get obj "Class" = Some c /\ py_eq c (VInt category) = true)
    /\ (forall k v, dict_get filters k = Some v ->
          exists x, dict_get obj k = Some x /\ py_eq x v = true).
Proof.
  intros obj category filters. unfold filter_body.
  assert (Hf :
            match filters_rejected obj filters (dict_keys filters) with
            | inl e0 => inl e0
            | inr rejected => if rejected then inr false else inr true
            end = inr true <->
            (forall k v, dict_get filters k = Some v ->
               exists x, dict_get obj k = Some x /\ py_eq x v = true)).
  { pose proof (filters_rejected_false obj filters (dict_keys filters)) as F.
    destruct (filters_rejected obj filters (dict_keys filters)) as [e|[|]].
    - split; [discriminate|]. intros H.
      assert (@inl exn bool e = inr false) as X; [|discriminate X].
      apply F. intros k Hin. destruct (in_keys_dict_get _ _ _ Hin) as [v Hv].
      destruct (H k v Hv) as (x & Hx & E). eauto.
    - split; [discriminate|]. intros H.
      assert (@inr exn bool true = inr false) as X; [|discriminate X].
      apply F. intros k Hin. destruct (in_keys_dict_get _ _ _ Hin) as [v Hv].
      destruct (H k v Hv) as (x & Hx & E). eauto.
    - split; [|reflexivity]. intros _ k v Hv.
      destruct (proj1 F eq_refl k (dict_get_in_keys _ _ _ _ Hv)) as (x & v' & Hx & Hv' & E).
      exists x. split; [assumption|congruence]. }
  destruct (Z.eqb_spec category BT_ANY) as [->|Hne]; simpl.
  - rewrite Hf. split; [intros H; split; auto|intros [_ H]; exact H].
  - destruct (dict_index obj "Class") as [e|c] eqn:Ec.
    + apply dict_index_inl in Ec as [_ Ec].
      split; [discriminate|]. intros [[H|(c & Hc & _)] _]; congruence.
    + apply dict_index_inr in Ec. unfold py_ne.
      destruct (py_eq c (VInt category)) eqn:Eq; simpl.
      * rewrite Hf. split; [intros H; split; eauto|intros [_ H]; exact H].
      * split; [discriminate|].
        intros [[H|(c' & Hc & E)] _]; congruence.
Qed.

(** C4.  For every property mapping [obj], class filter [category] and
    property-filter dictionary [filters], the [try] statement of
    [get_bt_devices] always completes with a boolean (no exception escapes
    it), and it yields the device iff ([category] is the wildcard [BT_ANY] or
    [obj] has a ["Class"] entry equal to [category]) and every key of
    [filters] is bound in [obj] to a value equal to the filter's.  Equality is
    Python's [==].  A missing class or property therefore counts as a
    non-match. *)
Theorem filter_device_matches :
  forall device obj category filters w,
    exists yielded w',
      filter_device device obj category filters w = (Ret yielded, w') /\
      (yielded = true <->
       (category = BT_ANY \/
        exists c, dict_get obj "Class" = Some c
                  /\ py_eq c (VInt category) = true)
       /\ (forall k v, dict_get filters k = Some v ->
             exists x, dict_get obj k = Some x /\ py_eq x v = true)).
Proof.
  intros device obj category filters w.
  unfold filter_device, try_except, lift.
  pose proof (filter_body_true obj category filters) as T.
  pose proof (filter_body_raises obj category filters) as R.
  destruct (filter_body obj category filters) as [e|b].
  - destruct (R e eq_refl) as [k ->].
    eexists false, _. split; [reflexivity|].
    split; [discriminate|]. intros H. apply T in H. discriminate H.
  - eexists b, _. split; [reflexivity|].
    rewrite <- T. split; intros H; congruence.
Qed.

(** ** The wildcard category *)

Lemma filters_rejected_agree :
  forall obj obj' filters keys,
    (forall k, In k keys -> dict_get obj k = dict_get obj' k) ->
    filters_rejected obj filters keys = filters_rejected obj' filters keys.
Proof.
  intros obj obj' filters keys; induction keys as [|k keys IH]; intros H.
  - reflexivity.
  - simpl. unfold dict_index at 1 3.
    rewrite (H k (or_introl eq_refl)).
    destruct (dict_get obj' k); [|reflexivity].
    destruct (dict_index filters k); [reflexivity|].
    destruct (py_ne v v0); [reflexivity|].
    apply IH. intros k' Hin. apply H. now right.
Qed.

(** C10, as the code has it.  [BT_ANY] is 0, and a call with [category = 0]
    whose [filters] do not name ["Class"] never consults the device's class:
    two property mappings that agree on every other key are treated alike.
    The [category] argument alone cannot select class 0. *)
Theorem any_category_ignores_class :
  forall device obj obj' filters w,
    dict_get filters "Class" = None ->
    (forall k, k <> "Class" -> dict_get obj k = dict_get obj' k) ->
    BT_ANY = 0 /\
    filter_device device obj 0 filters w = filter_device device obj' 0 filters w.
Proof.
  intros device obj obj' filters w Hf Hagree.
  split; [reflexivity|].
  unfold filter_device, try_except, lift, filter_body. simpl.
  rewrite (filters_rejected_agree obj obj' filters (dict_keys filters)).
  - reflexivity.
  - intros k Hin. apply Hagree. intros ->.
    destruct (in_keys_dict_get _ _ _ Hin) as [v Hv]. congruence.
Qed.

Lemma any_category_ignores_class_witness :
  dict_get [("Paired", VBool false)] "Class" = None
  /\ BT_ANY = 0
  /\ filter_device dev_A keyboard_props 0 [("Paired", VBool false)] (fresh [])
     = filter_device dev_A [("Name", VStr "K380"); ("Paired", VBool false)] 0
         [("Paired", VBool false)] (fresh []).
Proof.
  split; [reflexivity|].
  apply (any_category_ignores_class dev_A keyboard_props
           [("Name", VStr "K380"); ("Paired", VBool false)]
           [("Paired", VBool false)] (fresh [])).
  - reflexivity.
  - intros k Hk. simpl.
    destruct (String.eqb_spec k "Name"); [reflexivity|].
    destruct (String.eqb_spec k "Class"); [contradiction|reflexivity].
Defined.

(** C10, as stated, fails: with [category = 0] and [filters = {'Class': 0}]
    the call consults the class and yields the class-0 device only, while
    without the filter it yields both devices. *)
Lemma class_zero_selected_through_filters :
  BT_ANY = 0
  /\ fst (get_bt_devices (steady mixed_catalog) 0 [("Class", VInt 0)] (fresh []))
     = Ret [mkBtDevice dev_B]
  /\ fst (get_bt_devices (steady mixed_catalog) 0 [] (fresh []))
     = Ret [mkBtDevice dev_A; mkBtDevice dev_B].
Proof. repeat split; reflexivity. Qed.

(** ** Powering an adapter *)

Lemma count_app :
  forall p t t', count p (t ++ t') = (count p t + count p t')%nat.
Proof.
  intros p t t'. unfold count. now rewrite filter_app, length_app.
Qed.

(** What one call adds to the trace: at most one power-set request, and
    none when the adapter reports powered or cannot be read. *)
Lemma ensure_powered_trace :
  forall r self w,
    exists added,
      trace (snd (ensure_powered r self w)) = trace w ++ added
      /\ (count is_power_set added <= 1)%nat
      /\ ((forall v, Get r (trace w) (adapter_path self) IFACE "Powered" = inr v
                     -> truthy v = true)
          -> count is_power_set added = 0%nat).
Proof.
  intros r self w.
  unfold ensure_powered, bind, Properties_Get, log, emit.
  destruct (Get r (trace w) (adapter_path self) IFACE "Powered") as [msg|v] eqn:EG.
  - simpl. eexists. split; [reflexivity|]. split; [|intros _]; cbn; lia.
  - destruct (truthy v) eqn:Tv.
    + simpl. eexists. rewrite <- !app_assoc. split; [reflexivity|].
      split; [|intros _]; cbn; lia.
    + unfold try_except, set_bool_prop, Properties_Set, bind.
      set (w1 := emit_w _ (emit_w _ w)).
      destruct (Set_fault r (trace w1) (adapter_path self) IFACE "Powered"
                          (VBool true)) as [msg|]; subst w1;
        simpl; eexists; rewrite <- !app_assoc;
        (split; [reflexivity|]);
        (split; [cbn; lia|]);
        intros H; specialize (H v eq_refl); congruence.
Qed.

(** C8, as the code has it.  [ensure_powered] issues no power-set request
    when the adapter reports powered: it reads the property, logs, and
    returns.  Two calls in succession issue at most one request as soon as
    the adapter does not report unpowered at the second read, which is the
    case once the first request has taken effect. *)
Theorem ensure_powered_idempotent :
  forall r self w,
    let w1 := snd (ensure_powered r self w) in
    let w2 := snd (ensure_powered r self w1) in
    (forall v, Get r (trace w1) (adapter_path self) IFACE "Powered" = inr v
               -> truthy v = true) ->
    (count is_power_set (trace w2) <= count is_power_set (trace w) + 1)%nat
    /\ count is_power_set (trace w2) = count is_power_set (trace w1)
    /\ (forall v, Get r (trace w) (adapter_path self) IFACE "Powered" = inr v ->
                  truthy v = true ->
                  ensure_powered r self w
                  = (Ret PyNone,
                     extend [AGet (adapter_path self) IFACE "Powered";
                             ALog INFO (PoweringOn
                                          (last_segment (adapter_path self)));
                             ALog INFO DeviceAlreadyPowered] w)).
Proof.
  intros r self w w1 w2 H2.
  destruct (ensure_powered_trace r self w) as (a1 & E1 & B1 & _).
  destruct (ensure_powered_trace r self w1) as (a2 & E2 & _ & Z2).
  fold w1 in E1. fold w2 in E2. specialize (Z2 H2).
  rewrite E2, E1, !count_app, Z2.
  split; [lia|]. split; [lia|].
  intros v Hv Tv.
  unfold ensure_powered, bind, Properties_Get, log, emit.
  rewrite Hv, Tv. unfold ret, extend, emit_w. simpl.
  now rewrite <- !app_assoc.
Qed.

Lemma ensure_powered_idempotent_witness :
  (count is_power_set
     (trace (snd (ensure_powered obedient_remote (mkBtAdapter hci0)
                    (snd (ensure_powered obedient_remote (mkBtAdapter hci0)
                            (fresh []))))))
   <= count is_power_set (trace (fresh [])) + 1)%nat.
Proof.
  apply (ensure_powered_idempotent obedient_remote (mkBtAdapter hci0) (fresh [])).
  intros v H. vm_compute in H. inversion H. reflexivity.
Defined.

(** C8, as stated, fails when the power-set request is refused: the adapter
    still reports unpowered at the second call, which issues the request
    again. *)
Lemma ensure_powered_twice_when_blocked :
  let w1 := snd (ensure_powered blocked_remote (mkBtAdapter hci0) (fresh [])) in
  let w2 := snd (ensure_powered blocked_remote (mkBtAdapter hci0) w1) in
  count is_power_set (trace w2) = 2%nat
  /\ ~ (count is_power_set (trace w2)
        <= count is_power_set (trace (fresh [])) + 1)%nat.
Proof.
  split; [reflexivity|]. intros H. cbn in H. lia.
Qed.

(** ** Enumeration against a changing object tree *)

(** C5.  The device [dev_A] is enumerated and has vanished when its
    properties are read.  The lookup [GetManagedObjects()[path]] sits
    outside the [try] statement: the [KeyError] leaves [get_bt_devices],
    nothing is yielded, and [dev_B], which is still there and passes the
    filter, is never looked at. *)
Theorem vanished_device_aborts_enumeration :
  get_bt_devices vanishing_remote BT_ANY [] (fresh [])
  = (Raise (KeyError dev_A),
     extend [AGetManagedObjects; AGetManagedObjects] (fresh []))
  /\ count is_yield
       (trace (snd (get_bt_devices vanishing_remote BT_ANY [] (fresh []))))
     = 0%nat
  /\ paths_by_iface DEVICE_IFACE
       (GetManagedObjects vanishing_remote [AGetManagedObjects]) = [dev_B]
  /\ (exists w, filter_device dev_B keyboard_props BT_ANY [] (fresh [])
                = (Ret true, w)).
Proof.
  split; [reflexivity|]. split; [reflexivity|]. split; [reflexivity|].
  eexists. reflexivity.
Qed.

(** ** The timer callback *)

(** C7.  With two adapters and [StopDiscovery] refused on the first one,
    the timer callback raises: no stop request is issued on the second
    adapter and the loop is not asked to quit.  The scan whose timer it was
    stays blocked in the loop. *)
Theorem scan_timeout_stop_failure :
  let w := set_running true (fresh []) in
  _scan_timeout stop_failing_remote w
  = (Raise (DBusException "org.bluez.Error.Failed"),
     extend [AGetManagedObjects; ACall hci0 ADAPTER_IFACE StopDiscovery] w)
  /\ paths_by_iface ADAPTER_IFACE (GetManagedObjects stop_failing_remote [])
     = [hci0; hci1]
  /\ fst (scan stop_failing_remote 5 (fresh [TimeoutDue 1])) = Blocked
  /\ count is_loop_quit
       (trace (snd (scan stop_failing_remote 5 (fresh [TimeoutDue 1])))) = 0%nat.
Proof. repeat split; reflexivity. Qed.

(** ** Worlds *)

Lemma extend_nil : forall w, extend [] w = w.
Proof. intros [t q rs ts n ps b]. unfold extend. simpl. now rewrite app_nil_r. Qed.

Lemma extend_extend :
  forall a b w, extend b (extend a w) = extend (a ++ b) w.
Proof. intros a b w. unfold extend. simpl. now rewrite app_assoc. Qed.

Lemma mem_string_last :
  forall x l, mem_string x (l ++ [x]) = true.
Proof.
  intros x l. unfold mem_string. rewrite existsb_app. simpl.
  rewrite String.eqb_refl. now rewrite orb_true_r.
Qed.

Lemma mem_nat_last :
  forall x l, mem_nat x (l ++ [x]) = true.
Proof.
  intros x l. unfold mem_nat. rewrite existsb_app. simpl.
  rewrite Nat.eqb_refl. now rewrite orb_true_r.
Qed.

(** ** Signals in the loop *)

Lemma deliver_run :
  forall ev rc w, deliver ev rc w = (Ret tt, extend (delivery ev rc) w).
Proof.
  intros ev [h i s a] w. unfold deliver, delivery. simpl.
  destruct h, ev; try reflexivity; unfold ret; now rewrite extend_nil.
Qed.

Lemma deliver_all :
  forall ev rcs w,
    for_each rcs (deliver ev) w = (Ret tt, extend (flat_map (delivery ev) rcs) w).
Proof.
  intros ev rcs; induction rcs as [|rc rcs IH]; intros w; simpl.
  - unfold ret. now rewrite extend_nil.
  - unfold bind. rewrite deliver_run, IH. now rewrite extend_extend.
Qed.

Lemma no_receiver_matches :
  forall ev rcs,
    (forall rc, receiver_matches ev rc = false) ->
    filter (receiver_matches ev) rcs = [].
Proof.
  intros ev rcs H. induction rcs as [|rc rcs IH]; [reflexivity|].
  cbn [filter]. now rewrite H.
Qed.

Lemma dispatch_inert :
  forall r ev w,
    inert (timers w) (pending w) ev = true ->
    dispatch r ev w
    = (Ret tt, extend (signal_log (receivers w) [ev]) w).
Proof.
  intros r ev w H. unfold signal_log. cbn [flat_map]. rewrite app_nil_r.
  destruct ev as [path ifaces|iface changed inv path|id|path|path error];
    cbn [inert] in H; unfold dispatch.
  - apply deliver_all.
  - apply deliver_all.
  - apply negb_true_iff in H. rewrite H.
    rewrite no_receiver_matches by reflexivity. now rewrite extend_nil.
  - apply negb_true_iff in H. rewrite H.
    rewrite no_receiver_matches by reflexivity. now rewrite extend_nil.
  - apply negb_true_iff in H. rewrite H.
    rewrite no_receiver_matches by reflexivity. now rewrite extend_nil.
Qed.

Lemma loop_iterate_inbox :
  forall r events q w,
    loop_iterate r events (set_inbox q w) = loop_iterate r events w.
Proof. intros r [|ev events] q w; reflexivity. Qed.

Lemma signal_log_cons :
  forall rcs ev signals,
    signal_log rcs (ev :: signals) = signal_log rcs [ev] ++ signal_log rcs signals.
Proof. intros. unfold signal_log. simpl. now rewrite app_nil_r. Qed.

(** Inert events keep the loop running and only add to the log. *)
Lemma loop_inert :
  forall r signals events w,
    Forall (fun ev => inert (timers w) (pending w) ev = true) signals ->
    running w = true ->
    loop_iterate r (signals ++ events) w
    = loop_iterate r events (extend (signal_log (receivers w) signals) w).
Proof.
  intros r signals events; induction signals as [|ev signals IH]; intros w HF Hrun.
  - simpl. now rewrite extend_nil.
  - inversion HF as [|? ? Hev HF']; subst.
    cbn [app loop_iterate].
    rewrite (dispatch_inert r ev (set_inbox (signals ++ events) w) Hev).
    change (receivers (set_inbox (signals ++ events) w)) with (receivers w).
    change (extend (signal_log (receivers w) [ev])
                   (set_inbox (signals ++ events) w))
      with (set_inbox (signals ++ events)
                      (extend (signal_log (receivers w) [ev]) w)).
    change (running (set_inbox (signals ++ events)
                               (extend (signal_log (receivers w) [ev]) w)))
      with (running w).
    rewrite Hrun, loop_iterate_inbox.
    rewrite (IH (extend (signal_log (receivers w) [ev]) w) HF' Hrun).
    change (receivers (extend (signal_log (receivers w) [ev]) w))
      with (receivers w).
    now rewrite extend_extend, <- signal_log_cons.
Qed.

(** ** Pairing *)

Lemma pair_callback_run :
  forall (c : M unit) a w,
    (forall w0, c w0 = (Ret tt, emit_w a w0)) ->
    (c ;; resume) w = (Ret tt, set_running false (extend [a; ALoopQuit] w)).
Proof.
  intros c a w H. unfold bind, resume, main_loop_quit. rewrite H.
  unfold set_running, extend, emit_w. simpl. now rewrite <- app_assoc.
Qed.

Lemma pair_run :
  forall r self w signals reply rest rec,
    Forall (fun ev =>
              inert (timers w) (pending w ++ [device_path self]) ev = true)
           signals ->
    reply_record self reply = Some rec ->
    inbox w = signals ++ reply :: rest ->
    let t := trace w ++ [APairAsync (device_path self); ALoopRun]
                     ++ signal_log (receivers w) signals
                     ++ [rec; ALoopQuit] in
    pair r self w
    = (Ret PyNone,
       mkWorld (t ++ connect_actions r t (device_path self))
               rest (receivers w) (timers w) (next_source_id w)
               (remove_first (device_path self)
                             (pending w ++ [device_path self]))
               false).
Proof.
  intros r [p] w signals reply rest rec HF Hrec Hin t.
  unfold pair, bind, Pair_async, wait, main_loop_run.
  cbn [inbox device_path]. rewrite Hin.
  rewrite loop_inert by (assumption || reflexivity).
  cbn [loop_iterate].
  assert (Hd : exists lvl lr,
             rec = ALog lvl lr /\
             forall w0, mem_string p (pending w0) = true ->
                        dispatch r reply w0
                        = (Ret tt, set_running false
                                     (extend [rec; ALoopQuit] (settle p w0)))).
  { destruct reply as [| | |q|q e]; try discriminate Hrec;
      cbn [reply_record device_path] in Hrec;
      destruct (String.eqb_spec q p) as [->|]; try discriminate Hrec;
      inversion Hrec; subst rec; do 2 eexists; (split; [reflexivity|]);
      intros w0 Hm; unfold dispatch; rewrite Hm;
      apply pair_callback_run; reflexivity. }
  destruct Hd as (lvl & lr & -> & Hd).
  rewrite Hd by apply mem_string_last.
  cbn [running set_running].
  unfold try_except, call, log, emit, ret.
  cbn [trace set_running extend settle set_pending set_inbox emit_w].
  cbn [device_path receivers set_running emit_w] in *.
  set (t0 := (((trace w ++ [APairAsync p]) ++ [ALoopRun])
                ++ signal_log (receivers w) signals)
               ++ [ALog lvl lr; ALoopQuit]).
  assert (Et : t = t0).
  { subst t t0. now rewrite <- !app_assoc. }
  rewrite Et. unfold connect_actions.
  destruct (method_fault r t0 p DEVICE_IFACE Connect); subst t0;
    cbv [emit_w set_running extend settle set_pending set_inbox
         trace inbox receivers timers next_source_id pending running];
    cbn [app]; rewrite <- !app_assoc; reflexivity.
Qed.
(** Without a reply the call stays in the loop. *)
Lemma pair_blocked :
  forall r self w signals,
    Forall (fun ev =>
              inert (timers w) (pending w ++ [device_path self]) ev = true)
           signals ->
    inbox w = signals ->
    fst (pair r self w) = Blocked.
Proof.
  intros r self w signals HF Hin.
  unfold pair, bind, Pair_async, wait, main_loop_run.
  cbn [inbox]. rewrite Hin, <- (app_nil_r signals).
  rewrite loop_inert by (assumption || reflexivity).
  reflexivity.
Qed.

(** ** Scanning *)

Lemma restart_discovery_run :
  forall r adapter w,
    method_fault r (trace w ++ [ACall adapter ADAPTER_IFACE StopDiscovery])
                 adapter ADAPTER_IFACE StartDiscovery = None ->
    restart_discovery r adapter w
    = (Ret tt, extend (restart_actions [adapter]) w).
Proof.
  intros r adapter w H.
  unfold restart_discovery, bind, try_except, call.
  destruct (method_fault r (trace w) adapter ADAPTER_IFACE StopDiscovery);
    unfold ret; cbn [trace emit_w]; rewrite H;
    unfold emit_w, extend, restart_actions; simpl;
    rewrite <- !app_assoc; reflexivity.
Qed.

(** Refused stop requests are swallowed: when every start request is
    accepted the loop over the adapters completes. *)
Lemma restart_all_run :
  forall r adapters w,
    (forall t p, method_fault r t p ADAPTER_IFACE StartDiscovery = None) ->
    for_each adapters (restart_discovery r) w
    = (Ret tt, extend (restart_actions adapters) w).
Proof.
  intros r adapters; induction adapters as [|a adapters IH]; intros w H.
  - simpl. unfold ret. now rewrite extend_nil.
  - cbn [for_each]. unfold bind.
    rewrite restart_discovery_run by apply H.
    rewrite IH by assumption. rewrite extend_extend. reflexivity.
Qed.

Lemma stop_all_run :
  forall r adapters w,
    (forall t p,
        method_fault r (trace w ++ t) p ADAPTER_IFACE StopDiscovery = None) ->
    for_each adapters (fun adapter => call r adapter ADAPTER_IFACE StopDiscovery) w
    = (Ret tt, extend (stop_actions adapters) w).
Proof.
  intros r adapters; induction adapters as [|a adapters IH]; intros w H.
  - simpl. unfold ret. now rewrite extend_nil.
  - cbn [for_each]. unfold bind at 1. unfold call at 1.
    pose proof (H [] a) as H0. rewrite app_nil_r in H0. rewrite H0.
    rewrite IH.
    + unfold emit_w, extend, stop_actions. simpl. now rewrite <- app_assoc.
    + intros t p. cbn [trace emit_w]. rewrite <- app_assoc. apply H.
Qed.

Lemma _scan_timeout_run :
  forall r w,
    (forall t p,
        method_fault r (trace w ++ t) p ADAPTER_IFACE StopDiscovery = None) ->
    _scan_timeout r w
    = (Ret tt,
       set_running false
         (extend ([AGetManagedObjects]
                    ++ stop_actions
                         (paths_by_iface ADAPTER_IFACE
                                         (GetManagedObjects r (trace w)))
                    ++ [ALoopQuit]) w)).
Proof.
  intros r w H.
  unfold _scan_timeout, _get_objects_by_iface, bind at 1 2.
  unfold ObjectManager_GetManagedObjects, ret, bind.
  rewrite stop_all_run.
  - unfold main_loop_quit, set_running, extend, emit_w. simpl.
    now rewrite <- !app_assoc.
  - intros t p. cbn [trace emit_w]. rewrite <- app_assoc. apply H.
Qed.

Lemma dispatch_timeout_run :
  forall r id w,
    mem_nat id (timers w) = true ->
    (forall t p,
        method_fault r (trace w ++ t) p ADAPTER_IFACE StopDiscovery = None) ->
    dispatch r (TimeoutDue id) w
    = (Ret tt,
       disarm id
         (set_running false
            (extend ([AGetManagedObjects]
                       ++ stop_actions
                            (paths_by_iface ADAPTER_IFACE
                                            (GetManagedObjects r (trace w)))
                       ++ [ALoopQuit]) w))).
Proof.
  intros r id w Hm H. unfold dispatch. rewrite Hm.
  now rewrite _scan_timeout_run by assumption.
Qed.

Lemma scan_run :
  forall r timeout w signals rest,
    Forall (fun ev =>
              inert (timers w ++ [next_source_id w]) (pending w) ev = true)
           signals ->
    inbox w = signals ++ TimeoutDue (next_source_id w) :: rest ->
    (forall t p, method_fault r t p ADAPTER_IFACE StartDiscovery = None) ->
    (forall t p,
        In ALoopRun t ->
        method_fault r (trace w ++ t) p ADAPTER_IFACE StopDiscovery = None) ->
    scan r timeout w
    = (Ret PyNone,
       mkWorld (trace w ++ scan_actions r timeout w signals)
               rest
               (receivers w ++ [rc_interfaces_added; rc_properties_changed])
               (filter (fun i => negb (Nat.eqb (next_source_id w) i))
                       (timers w ++ [next_source_id w]))
               (S (next_source_id w)) (pending w) false).
Proof.
  intros r timeout [t q rs ts n ps b] signals rest HF Hin Hstart Hstop.
  cbn [trace inbox receivers timers next_source_id pending running] in *.
  subst q.
  cbv [scan bind add_signal_receiver _get_objects_by_iface
       ObjectManager_GetManagedObjects ret emit_w
       trace inbox receivers timers next_source_id pending running].
  rewrite restart_all_run by assumption.
  cbv [timeout_add_seconds main_loop_run emit_w set_running extend bind
       trace inbox receivers timers next_source_id pending running].
  rewrite loop_inert by (assumption || reflexivity).
  cbn [loop_iterate].
  rewrite dispatch_timeout_run.
  - cbv [disarm set_timers set_running extend set_inbox scan_actions
         scan_start_actions
         trace inbox receivers timers next_source_id pending running].
    cbn [app]. rewrite <- !app_assoc. reflexivity.
  - apply mem_nat_last.
  - intros t0 p.
    cbv [set_inbox extend
         trace inbox receivers timers next_source_id pending running].
    rewrite <- !app_assoc. apply Hstop.
    rewrite !in_app_iff. cbn [In]. intuition.
Qed.

(** Until the timer is due the call stays in the loop. *)
Lemma scan_blocked :
  forall r timeout w signals,
    Forall (fun ev =>
              inert (timers w ++ [next_source_id w]) (pending w) ev = true)
           signals ->
    inbox w = signals ->
    (forall t p, method_fault r t p ADAPTER_IFACE StartDiscovery = None) ->
    fst (scan r timeout w) = Blocked.
Proof.
  intros r timeout [t q rs ts n ps b] signals HF Hin Hstart.
  cbn [trace inbox receivers timers next_source_id pending running] in *.
  subst q.
  cbv [scan bind add_signal_receiver _get_objects_by_iface
       ObjectManager_GetManagedObjects ret emit_w
       trace inbox receivers timers next_source_id pending running].
  rewrite restart_all_run by assumption.
  cbv [timeout_add_seconds main_loop_run emit_w set_running extend bind
       trace inbox receivers timers next_source_id pending running].
  rewrite <- (app_nil_r signals) at 1.
  rewrite loop_inert by (assumption || reflexivity).
  reflexivity.
Qed.

(** ** Enumeration against an object tree that does not change *)

Lemma dict_get_wf_in :
  forall (V : Type) (d : dict V) (k : string) (v : V),
    dict_wf d -> In (k, v) d -> dict_get d k = Some v.
Proof.
  unfold dict_wf, dict_keys.
  induction d as [|[k' v'] d IH]; intros k v Hwf Hin; simpl in *.
  - contradiction.
  - inversion Hwf as [|? ? Hnot Hwf']; subst.
    destruct Hin as [Heq|Hin].
    + inversion Heq; subst. now rewrite String.eqb_refl.
    + destruct (String.eqb_spec k k') as [->|_].
      * exfalso. apply Hnot. apply (in_map fst) in Hin. exact Hin.
      * now apply IH.
Qed.

Lemma filter_device_run :
  forall device obj category filters w,
    exists w',
      filter_device device obj category filters w
      = (Ret match filter_body obj category filters with
             | inr true => true
             | _ => false
             end, w').
Proof.
  intros device obj category filters w.
  unfold filter_device, try_except, lift.
  pose proof (filter_body_raises obj category filters) as R.
  destruct (filter_body obj category filters) as [e|[|]].
  - destruct (R e eq_refl) as [k ->]. eexists. reflexivity.
  - eexists. reflexivity.
  - eexists. reflexivity.
Qed.

Lemma bind_ret :
  forall (A B : Type) (c : M A) (k : A -> M B) w a w',
    c w = (Ret a, w') -> bind c k w = k a w'.
Proof. intros A B c k w a w' H. unfold bind. now rewrite H. Qed.

Lemma get_object_by_path_found :
  forall r path ifaces w,
    dict_get (GetManagedObjects r (trace w)) path = Some ifaces ->
    get_object_by_path r path w = (Ret ifaces, emit_w AGetManagedObjects w).
Proof.
  intros r path ifaces w H.
  unfold get_object_by_path, bind, ObjectManager_GetManagedObjects, lift,
    dict_index.
  now rewrite H.
Qed.

Lemma get_bt_devices_loop_stable :
  forall r category filters objects,
    (forall t, GetManagedObjects r t = objects) ->
    forall items w,
      (forall item, In item items ->
                    dict_get objects (fst item) = Some (snd item)) ->
      exists w',
        get_bt_devices_loop r category filters
                            (paths_by_iface DEVICE_IFACE items) w
        = (Ret (matching_devices category filters items), w').
Proof.
  intros r category filters objects Hst items.
  induction items as [|[path ifaces] items IH]; intros w Hget.
  - eexists. reflexivity.
  - assert (Hrest : forall item, In item items ->
                      dict_get objects (fst item) = Some (snd item)).
    { intros item Hin. apply Hget. now right. }
    pose proof (Hget (path, ifaces) (or_introl eq_refl)) as Hhere.
    cbn [fst snd] in Hhere.
    unfold paths_by_iface, matching_devices, device_passes, implements.
    cbn [filter map fst snd].
    destruct (dict_get ifaces DEVICE_IFACE) as [[|p props]|] eqn:Ed;
      try (apply (IH w Hrest)).
    cbn [map get_bt_devices_loop].
    erewrite bind_ret
      by (apply get_object_by_path_found; rewrite Hst; exact Hhere).
    erewrite bind_ret
      by (unfold lift, dict_index; rewrite Ed; reflexivity).
    destruct (filter_device_run path (p :: props) category filters
                                (emit_w AGetManagedObjects w)) as [w1 Hf].
    erewrite bind_ret by exact Hf.
    destruct (filter_body (p :: props) category filters) as [e|[|]].
    + apply (IH w1 Hrest).
    + destruct (IH (emit_w (AYield path) w1) Hrest) as [w2 E].
      erewrite bind_ret by reflexivity.
      unfold paths_by_iface, implements in E.
      erewrite bind_ret by exact E.
      eexists. reflexivity.
    + apply (IH w1 Hrest).
Qed.

Lemma get_bt_devices_stable :
  forall r category filters objects w,
    (forall t, GetManagedObjects r t = objects) ->
    dict_wf objects ->
    exists w',
      get_bt_devices r category filters w
      = (Ret (matching_devices category filters objects), w').
Proof.
  intros r category filters objects w Hst Hwf.
  unfold get_bt_devices, _get_objects_by_iface, bind at 1 2.
  unfold ObjectManager_GetManagedObjects, ret. rewrite Hst.
  apply (get_bt_devices_loop_stable r category filters objects Hst).
  intros [k v] Hin. now apply dict_get_wf_in.
Qed.

Lemma matching_devices_none :
  forall category filters objects,
    paths_by_iface DEVICE_IFACE objects = [] ->
    matching_devices category filters objects = [].
Proof.
  intros category filters objects.
  unfold paths_by_iface, matching_devices, device_passes, implements.
  induction objects as [|[path ifaces] objects IH]; intros H.
  - reflexivity.
  - cbn [filter map fst snd] in *.
    destruct (dict_get ifaces DEVICE_IFACE) as [[|p props]|];
      try (now apply IH).
    discriminate H.
Qed.

(** ** Counting in the traces of a session *)

(** Signal handlers only write log records of their own. *)
Lemma count_signal_log :
  forall p rcs signals,
    (forall a, is_signal_record a = true -> p a = false) ->
    count p (signal_log rcs signals) = 0%nat.
Proof.
  intros p rcs signals Hp. unfold signal_log.
  induction signals as [|ev signals IH]; [reflexivity|].
  cbn [flat_map]. rewrite count_app, IH, Nat.add_0_r.
  induction (filter (receiver_matches ev) rcs) as [|rc l IHl]; [reflexivity|].
  cbn [flat_map]. rewrite count_app, IHl, Nat.add_0_r.
  unfold delivery. destruct (rc_handler rc), ev; try reflexivity;
    unfold count; cbn [filter]; rewrite Hp; reflexivity.
Qed.

Lemma count_restart_actions :
  forall p adapters,
    (forall a i m, p (ACall a i m) = false) ->
    count p (restart_actions adapters) = 0%nat.
Proof.
  intros p adapters Hp. unfold restart_actions.
  induction adapters as [|a adapters IH]; [reflexivity|].
  cbn [flat_map]. rewrite count_app, IH.
  unfold count. cbn [filter app]. now rewrite !Hp.
Qed.

Lemma count_stop_actions :
  forall p adapters,
    (forall a i m, p (ACall a i m) = false) ->
    count p (stop_actions adapters) = 0%nat.
Proof.
  intros p adapters Hp. unfold stop_actions.
  induction adapters as [|a adapters IH]; [reflexivity|].
  cbn [map]. unfold count in *. cbn [filter]. now rewrite Hp.
Qed.

Lemma Forall_firstn :
  forall (A : Type) (P : A -> Prop) n (l : list A),
    Forall P l -> Forall P (firstn n l).
Proof.
  intros A P n; induction n as [|n IH]; intros l H; [constructor|].
  destruct H as [|x l Hx H]; cbn [firstn]; constructor.
  - exact Hx.
  - now apply IH.
Qed.

(** ** Pairing: what a call does *)

Ltac not_a_signal_record :=
  let a := fresh "a" in
  let H := fresh "H" in
  intros a H; destruct a; try discriminate H;
  match goal with
  | lr : LogRecord |- _ => destruct lr; try discriminate H
  end;
  reflexivity.

(** Before the reply to [Pair] on a device, no event concerns the callbacks
    of that device. *)
Lemma inbox_split :
  forall self events,
    Forall (fun ev => reply_record self ev = None) events
    \/ exists prefix reply rest rec,
        events = prefix ++ reply :: rest
        /\ Forall (fun ev => reply_record self ev = None) prefix
        /\ reply_record self reply = Some rec.
Proof.
  intros self events; induction events as [|ev events IH].
  - left. constructor.
  - destruct (reply_record self ev) as [rec|] eqn:E.
    + right. exists [], ev, events, rec. repeat split; [constructor|exact E].
    + destruct IH as [IH|(prefix & reply & rest & rec & -> & HF & Hr)].
      * left. now constructor.
      * right. exists (ev :: prefix), reply, rest, rec.
        repeat split; [now constructor|exact Hr].
Qed.

(** With no timer armed, an event that is not a reply to the one pending
    call wakes no callback. *)
Lemma no_reply_inert :
  forall self ev,
    reply_record self ev = None ->
    inert [] [device_path self] ev = true.
Proof.
  intros self [path ifaces|iface changed inv path|id|path|path error] H;
    cbn [reply_record inert mem_string mem_nat existsb] in *;
    try reflexivity;
    destruct (String.eqb path (device_path self)); try discriminate H;
    reflexivity.
Qed.

(** C2, as the code has it.  Take a manager between calls (no timer armed,
    no call pending) and a call of [pair] whose first answer from the remote
    service is the success callback or the failure callback with some
    reason.  The call hands back [None] in both cases: the outcome is not
    part of the result.  It is logged, once: an info record of success when
    the success callback fired, a warning record with the reason when the
    failure callback fired, and no other outcome record.  The trace reads:
    the request, the loop entered, what the signals of the wait log, that
    record, the loop quit, then [Connect()] and the log of its refusal if it
    is refused; so the loop is entered once, quit once by the callback, and
    not entered again.  As long as no answer has arrived the call has not
    returned. *)
Theorem pair_returns_none_after_one_callback :
  forall r self w prefix reply rest,
    timers w = [] ->
    pending w = [] ->
    Forall (fun ev => reply_record self ev = None) prefix ->
    (reply = MethodReturn (device_path self)
     \/ exists reason, reply = MethodError (device_path self) reason) ->
    inbox w = prefix ++ reply :: rest ->
    exists w' rec t,
      pair r self w = (Ret PyNone, w')
      /\ (reply = MethodReturn (device_path self) ->
          rec = ALog INFO (SuccessfullyPaired (device_path self)))
      /\ (forall reason,
             reply = MethodError (device_path self) reason ->
             rec = ALog WARNING (PairingFailed (device_path self) reason))
      /\ t = trace w
               ++ [APairAsync (device_path self); ALoopRun]
               ++ signal_log (receivers w) prefix
               ++ [rec; ALoopQuit]
      /\ trace w' = t ++ connect_actions r t (device_path self)
      /\ (count is_pair_success (trace w') + count is_pair_failure (trace w')
          = count is_pair_success (trace w) + count is_pair_failure (trace w)
            + 1)%nat
      /\ count is_loop_run (trace w') = (count is_loop_run (trace w) + 1)%nat
      /\ count is_loop_quit (trace w') = (count is_loop_quit (trace w) + 1)%nat
      /\ count is_loop_run (connect_actions r t (device_path self)) = 0%nat
      /\ running w' = false
      /\ inbox w' = rest
      /\ (forall n,
             fst (pair r self (set_inbox (firstn n prefix) w)) = Blocked).
Proof.
  intros r self w prefix reply rest Hts Hps HF0 Hreply Hin.
  assert (Hinert : forall evs,
             Forall (fun ev => reply_record self ev = None) evs ->
             Forall (fun ev => inert (timers w) (pending w ++ [device_path self])
                                     ev = true) evs).
  { intros evs H. rewrite Hts, Hps. cbn [app].
    eapply Forall_impl; [|exact H]. intros e. apply no_reply_inert. }
  assert (Hrec : exists rec,
             reply_record self reply = Some rec
             /\ (reply = MethodReturn (device_path self) ->
                 rec = ALog INFO (SuccessfullyPaired (device_path self)))
             /\ (forall reason,
                    reply = MethodError (device_path self) reason ->
                    rec = ALog WARNING
                               (PairingFailed (device_path self) reason))
             /\ (count is_pair_success [rec] + count is_pair_failure [rec]
                 = 1)%nat
             /\ count is_loop_run [rec] = 0%nat
             /\ count is_loop_quit [rec] = 0%nat).
  { destruct Hreply as [->|[reason ->]]; cbn [reply_record];
      rewrite String.eqb_refl; eexists; (split; [reflexivity|]);
      repeat split; try reflexivity; try discriminate.
    intros reason' H. inversion H. reflexivity. }
  destruct Hrec as (rec & Hrec & Hok & Herr & Hone & Hnr & Hnq).
  pose proof (pair_run r self w prefix reply rest rec (Hinert _ HF0) Hrec Hin)
    as Hrun.
  cbv zeta in Hrun.
  assert (Hc : forall p tr,
             p (ACall (device_path self) DEVICE_IFACE Connect) = false ->
             (forall msg, p (ALog ERROR (FailedToConnect msg)) = false) ->
             count p (connect_actions r tr (device_path self)) = 0%nat).
  { intros p tr H1 H2. unfold connect_actions, count.
    destruct (method_fault r tr (device_path self) DEVICE_IFACE Connect);
      cbn [filter]; rewrite H1, ?H2; reflexivity. }
  eexists _, rec, _. split; [exact Hrun|].
  split; [exact Hok|]. split; [exact Herr|]. split; [reflexivity|].
  cbn [trace running inbox].
  split; [reflexivity|].
  split.
  { rewrite !count_app, !Hc by reflexivity.
    rewrite !count_signal_log by not_a_signal_record.
    change [rec; ALoopQuit] with ([rec] ++ [ALoopQuit]).
    rewrite !count_app. cbn [count filter is_pair_success is_pair_failure
                                   List.length] in *.
    lia. }
  split.
  { rewrite !count_app, Hc by reflexivity.
    rewrite count_signal_log by not_a_signal_record.
    change [rec; ALoopQuit] with ([rec] ++ [ALoopQuit]).
    rewrite !count_app, Hnr. cbn. lia. }
  split.
  { rewrite !count_app, Hc by reflexivity.
    rewrite count_signal_log by not_a_signal_record.
    change [rec; ALoopQuit] with ([rec] ++ [ALoopQuit]).
    rewrite !count_app, Hnq. cbn. lia. }
  split; [apply Hc; reflexivity|].
  split; [reflexivity|]. split; [reflexivity|].
  intros n. apply (pair_blocked r self _ (firstn n prefix)).
  - apply Hinert. now apply Forall_firstn.
  - reflexivity.
Qed.

Lemma pair_returns_none_after_one_callback_witness :
  exists w' rec t,
    pair (steady keyboard_catalog) (mkBtDevice dev_A)
         (fresh [paired_changed; TimeoutDue 7; MethodReturn dev_B;
                 MethodError dev_A "AuthenticationFailed"])
    = (Ret PyNone, w')
    /\ (MethodError dev_A "AuthenticationFailed" = MethodReturn dev_A ->
        rec = ALog INFO (SuccessfullyPaired dev_A))
    /\ (forall reason,
           MethodError dev_A "AuthenticationFailed" = MethodError dev_A reason ->
           rec = ALog WARNING (PairingFailed dev_A reason))
    /\ t = []
             ++ [APairAsync dev_A; ALoopRun]
             ++ signal_log [] [paired_changed; TimeoutDue 7; MethodReturn dev_B]
             ++ [rec; ALoopQuit]
    /\ trace w' = t ++ connect_actions (steady keyboard_catalog) t dev_A
    /\ (count is_pair_success (trace w') + count is_pair_failure (trace w')
        = 0 + 0 + 1)%nat
    /\ count is_loop_run (trace w') = (0 + 1)%nat
    /\ count is_loop_quit (trace w') = (0 + 1)%nat
    /\ count is_loop_run (connect_actions (steady keyboard_catalog) t dev_A)
       = 0%nat
    /\ running w' = false
    /\ inbox w' = []
    /\ (forall n,
           fst (pair (steady keyboard_catalog) (mkBtDevice dev_A)
                     (set_inbox
                        (firstn n [paired_changed; TimeoutDue 7;
                                   MethodReturn dev_B])
                        (fresh [paired_changed; TimeoutDue 7;
                                MethodReturn dev_B;
                                MethodError dev_A "AuthenticationFailed"])))
           = Blocked).
Proof.
  apply (pair_returns_none_after_one_callback
           (steady keyboard_catalog) (mkBtDevice dev_A)
           (fresh [paired_changed; TimeoutDue 7; MethodReturn dev_B;
                   MethodError dev_A "AuthenticationFailed"])
           [paired_changed; TimeoutDue 7; MethodReturn dev_B]
           (MethodError dev_A "AuthenticationFailed") []).
  - reflexivity.
  - reflexivity.
  - repeat constructor.
  - right. exists "AuthenticationFailed". reflexivity.
  - reflexivity.
Defined.

(** C2, as stated, fails: the call does not resolve to a success or a
    failure value.  Whether the success callback or the failure callback
    fired, what [pair] hands back is the same [None]. *)
Lemma pair_hands_back_none_either_way :
  let paired := pair (steady keyboard_catalog) (mkBtDevice dev_A)
                     (fresh [MethodReturn dev_A]) in
  let failed := pair (steady keyboard_catalog) (mkBtDevice dev_A)
                     (fresh [MethodError dev_A "AuthenticationFailed"]) in
  fst paired = Ret PyNone
  /\ fst failed = Ret PyNone
  /\ fst paired = fst failed
  /\ ~ (fst paired = Ret PySuccess
        \/ exists reason, fst paired = Ret (PyFailure reason))
  /\ ~ (fst failed = Ret PySuccess
        \/ exists reason, fst failed = Ret (PyFailure reason)).
Proof.
  repeat split; try reflexivity.
  - intros [H|[reason H]]; discriminate H.
  - intros [H|[reason H]]; discriminate H.
Qed.




(** ** A scan whose requests are accepted one by one *)

Lemma restart_all_exact :
  forall r adapters w,
    starts_accepted r (trace w) adapters ->
    for_each adapters (restart_discovery r) w
    = (Ret tt, extend (restart_actions adapters) w).
Proof.
  intros r adapters; induction adapters as [|a adapters IH]; intros w H.
  - simpl. unfold ret. now rewrite extend_nil.
  - cbn [starts_accepted] in H. destruct H as [Ha Hrest].
    cbn [for_each]. unfold bind.
    rewrite restart_discovery_run by exact Ha.
    rewrite IH by exact Hrest. rewrite extend_extend. reflexivity.
Qed.

Lemma stop_all_exact :
  forall r adapters w,
    stops_accepted r (trace w) adapters ->
    for_each adapters (fun adapter => call r adapter ADAPTER_IFACE StopDiscovery) w
    = (Ret tt, extend (stop_actions adapters) w).
Proof.
  intros r adapters; induction adapters as [|a adapters IH]; intros w H.
  - simpl. unfold ret. now rewrite extend_nil.
  - cbn [stops_accepted] in H. destruct H as [Ha Hrest].
    cbn [for_each]. unfold bind at 1. unfold call at 1. rewrite Ha.
    rewrite IH by exact Hrest.
    unfold emit_w, extend, stop_actions. simpl. now rewrite <- app_assoc.
Qed.

Lemma _scan_timeout_exact :
  forall r w,
    stops_accepted r (trace w ++ [AGetManagedObjects])
                   (paths_by_iface ADAPTER_IFACE
                                   (GetManagedObjects r (trace w))) ->
    _scan_timeout r w
    = (Ret tt,
       set_running false
         (extend ([AGetManagedObjects]
                    ++ stop_actions
                         (paths_by_iface ADAPTER_IFACE
                                         (GetManagedObjects r (trace w)))
                    ++ [ALoopQuit]) w)).
Proof.
  intros r w H.
  unfold _scan_timeout, _get_objects_by_iface, bind at 1 2.
  unfold ObjectManager_GetManagedObjects, ret, bind.
  rewrite stop_all_exact by exact H.
  unfold main_loop_quit, set_running, extend, emit_w. simpl.
  now rewrite <- !app_assoc.
Qed.

(** A scan runs to its timeout as soon as the requests it issues itself are
    accepted, whatever the service would answer at other moments. *)
Lemma scan_run_exact :
  forall r timeout w signals rest,
    Forall (fun ev =>
              inert (timers w ++ [next_source_id w]) (pending w) ev = true)
           signals ->
    inbox w = signals ++ TimeoutDue (next_source_id w) :: rest ->
    scan_accepted r timeout w signals ->
    scan r timeout w
    = (Ret PyNone,
       mkWorld (trace w ++ scan_actions r timeout w signals)
               rest
               (receivers w ++ [rc_interfaces_added; rc_properties_changed])
               (filter (fun i => negb (Nat.eqb (next_source_id w) i))
                       (timers w ++ [next_source_id w]))
               (S (next_source_id w)) (pending w) false).
Proof.
  intros r timeout [t q rs ts n ps b] signals rest HF Hin [Hstart Hstop].
  cbn [trace inbox receivers timers next_source_id pending running] in *.
  subst q.
  cbv [scan bind add_signal_receiver _get_objects_by_iface
       ObjectManager_GetManagedObjects ret emit_w
       trace inbox receivers timers next_source_id pending running].
  rewrite <- !app_assoc. cbn [app].
  rewrite restart_all_exact.
  2:{ cbn [trace]. rewrite <- ?app_assoc. exact Hstart. }
  cbv [timeout_add_seconds main_loop_run emit_w set_running extend bind
       trace inbox receivers timers next_source_id pending running].
  rewrite loop_inert by (assumption || reflexivity).
  cbn [loop_iterate].
  unfold dispatch.
  cbv [set_inbox extend
       trace inbox receivers timers next_source_id pending running].
  rewrite mem_nat_last.
  rewrite _scan_timeout_exact.
  - cbv [disarm set_timers set_running extend set_inbox scan_actions
         scan_start_actions
         trace inbox receivers timers next_source_id pending running].
    cbn [app]. rewrite <- !app_assoc. reflexivity.
  - cbn [trace].
    unfold scan_start_actions in Hstop.
    cbn [trace receivers next_source_id] in Hstop.
    rewrite <- ?app_assoc in *. cbn [app] in *. exact Hstop.
Qed.

(** ** Enumeration once the object tree has settled *)

Lemma filter_device_extends :
  forall device obj category filters w,
    exists logged,
      filter_device device obj category filters w
      = (Ret match filter_body obj category filters with
             | inr true => true
             | _ => false
             end, extend logged w).
Proof.
  intros device obj category filters w.
  unfold filter_device, try_except, lift.
  pose proof (filter_body_raises obj category filters) as R.
  destruct (filter_body obj category filters) as [e|[|]].
  - destruct (R e eq_refl) as [k ->].
    exists [ALog INFO (PropertyNotFound k device)]. reflexivity.
  - exists []. unfold ret. now rewrite extend_nil.
  - exists []. unfold ret. now rewrite extend_nil.
Qed.

Lemma get_bt_devices_loop_stable_from :
  forall r category filters objects items w,
    (forall t, GetManagedObjects r (trace w ++ t) = objects) ->
    (forall item, In item items ->
                  dict_get objects (fst item) = Some (snd item)) ->
    exists added,
      get_bt_devices_loop r category filters
                          (paths_by_iface DEVICE_IFACE items) w
      = (Ret (matching_devices category filters items), extend added w).
Proof.
  intros r category filters objects items.
  induction items as [|[path ifaces] items IH]; intros w Hst Hget.
  - exists []. cbn. unfold ret. now rewrite extend_nil.
  - assert (Hrest : forall item, In item items ->
                      dict_get objects (fst item) = Some (snd item)).
    { intros item Hin. apply Hget. now right. }
    pose proof (Hget (path, ifaces) (or_introl eq_refl)) as Hhere.
    cbn [fst snd] in Hhere.
    unfold paths_by_iface, matching_devices, device_passes, implements.
    cbn [filter map fst snd].
    destruct (dict_get ifaces DEVICE_IFACE) as [[|p props]|] eqn:Ed;
      try (apply (IH w Hst Hrest)).
    cbn [map get_bt_devices_loop].
    erewrite bind_ret.
    2:{ apply get_object_by_path_found.
        pose proof (Hst []) as H0. rewrite app_nil_r in H0.
        rewrite H0. exact Hhere. }
    erewrite bind_ret
      by (unfold lift, dict_index; rewrite Ed; reflexivity).
    destruct (filter_device_extends path (p :: props) category filters
                                    (emit_w AGetManagedObjects w))
      as [logged Hf].
    erewrite bind_ret by exact Hf.
    destruct (filter_body (p :: props) category filters) as [e|[|]].
    + destruct (IH (extend logged (emit_w AGetManagedObjects w)))
        as [added E]; [|exact Hrest|].
      { intros t. cbn [trace extend emit_w]. rewrite <- !app_assoc.
        apply Hst. }
      unfold paths_by_iface, implements, matching_devices, device_passes in E.
      rewrite E. exists ([AGetManagedObjects] ++ logged ++ added).
      unfold extend, emit_w. cbn. now rewrite <- !app_assoc.
    + destruct (IH (emit_w (AYield path)
                      (extend logged (emit_w AGetManagedObjects w))))
        as [added E]; [|exact Hrest|].
      { intros t. cbn [trace extend emit_w]. rewrite <- !app_assoc.
        apply Hst. }
      erewrite bind_ret by reflexivity.
      unfold paths_by_iface, implements, matching_devices, device_passes in E.
      erewrite bind_ret by exact E.
      exists ([AGetManagedObjects] ++ logged ++ [AYield path] ++ added).
      unfold ret, extend, emit_w. cbn. now rewrite <- !app_assoc.
    + destruct (IH (extend logged (emit_w AGetManagedObjects w)))
        as [added E]; [|exact Hrest|].
      { intros t. cbn [trace extend emit_w]. rewrite <- !app_assoc.
        apply Hst. }
      unfold paths_by_iface, implements, matching_devices, device_passes in E.
      rewrite E. exists ([AGetManagedObjects] ++ logged ++ added).
      unfold extend, emit_w. cbn. now rewrite <- !app_assoc.
Qed.

(** From a moment on which the object tree no longer changes,
    [get_bt_devices] yields the devices of that tree that pass the filter. *)
Lemma get_bt_devices_stable_from :
  forall r category filters objects w,
    (forall t, GetManagedObjects r (trace w ++ t) = objects) ->
    dict_wf objects ->
    exists w',
      get_bt_devices r category filters w
      = (Ret (matching_devices category filters objects), w').
Proof.
  intros r category filters objects w Hst Hwf.
  unfold get_bt_devices, _get_objects_by_iface, bind at 1 2.
  unfold ObjectManager_GetManagedObjects, ret.
  pose proof (Hst []) as H0. rewrite app_nil_r in H0. rewrite H0.
  destruct (get_bt_devices_loop_stable_from r category filters objects
              objects (emit_w AGetManagedObjects w)) as [added E].
  - intros t. cbn [trace emit_w]. rewrite <- app_assoc. apply Hst.
  - intros [k v] Hin. now apply dict_get_wf_in.
  - rewrite E. eexists. reflexivity.
Qed.

Lemma scan_blocked_exact :
  forall r timeout w signals,
    Forall (fun ev =>
              inert (timers w ++ [next_source_id w]) (pending w) ev = true)
           signals ->
    inbox w = signals ->
    starts_accepted r
      (trace w ++ [AAddSignalReceiver rc_interfaces_added;
                   AAddSignalReceiver rc_properties_changed;
                   AGetManagedObjects])
      (paths_by_iface ADAPTER_IFACE
         (GetManagedObjects r
            (trace w ++ [AAddSignalReceiver rc_interfaces_added;
                         AAddSignalReceiver rc_properties_changed]))) ->
    fst (scan r timeout w) = Blocked.
Proof.
  intros r timeout [t q rs ts n ps b] signals HF Hin Hstart.
  cbn [trace inbox receivers timers next_source_id pending running] in *.
  subst q.
  cbv [scan bind add_signal_receiver _get_objects_by_iface
       ObjectManager_GetManagedObjects ret emit_w
       trace inbox receivers timers next_source_id pending running].
  rewrite <- !app_assoc. cbn [app].
  rewrite restart_all_exact.
  2:{ cbn [trace]. rewrite <- ?app_assoc. exact Hstart. }
  cbv [timeout_add_seconds main_loop_run emit_w set_running extend bind
       trace inbox receivers timers next_source_id pending running].
  rewrite <- (app_nil_r signals) at 1.
  rewrite loop_inert by (assumption || reflexivity).
  reflexivity.
Qed.

(** ** Scanning: what a call does *)

Lemma in_restart_actions :
  forall a adapters,
    In a adapters ->
    In (ACall a ADAPTER_IFACE StopDiscovery) (restart_actions adapters)
    /\ In (ACall a ADAPTER_IFACE StartDiscovery) (restart_actions adapters).
Proof.
  intros a adapters Hin. unfold restart_actions.
  split; apply in_flat_map; exists a; (split; [assumption|]); cbn; auto.
Qed.

Lemma count_scan_actions_loop :
  forall r timeout w signals,
    count is_loop_run (scan_actions r timeout w signals) = 1%nat
    /\ count is_loop_quit (scan_actions r timeout w signals) = 1%nat.
Proof.
  intros r timeout w signals. unfold scan_actions, scan_start_actions.
  split; rewrite !count_app;
    rewrite count_restart_actions, count_stop_actions, count_signal_log
      by (reflexivity || not_a_signal_record);
    reflexivity.
Qed.

Lemma in_scan_actions_timeout :
  forall r timeout w signals,
    In (ATimeoutAdd timeout (next_source_id w))
       (scan_actions r timeout w signals).
Proof.
  intros r timeout w signals. unfold scan_actions, scan_start_actions.
  rewrite !in_app_iff. cbn [In]. intuition.
Qed.

(** With no call pending, an event other than the timer coming due wakes
    no callback. *)
Lemma not_due_inert :
  forall n ev, ev <> TimeoutDue n -> inert [n] [] ev = true.
Proof.
  intros n [path ifaces|iface changed inv path|id|path|path error] H;
    cbn [inert mem_string mem_nat existsb]; try reflexivity.
  destruct (Nat.eqb_spec id n) as [->|_]; [now contradiction H|reflexivity].
Qed.

Lemma idle_scan_prefix :
  forall w signals,
    timers w = [] ->
    pending w = [] ->
    Forall (fun ev => ev <> TimeoutDue (next_source_id w)) signals ->
    Forall (fun ev =>
              inert (timers w ++ [next_source_id w]) (pending w) ev = true)
           signals.
Proof.
  intros w signals Hts Hps H. rewrite Hts, Hps. cbn [app].
  eapply Forall_impl; [|exact H]. intros e. apply not_due_inert.
Qed.

(** C3, as the code has it.  On a manager between calls, a scan with timeout
    [T] arms one timer with [T], hands back [None] once that timer has come
    due and its callback has stopped discovery and quit the loop, and has
    not returned at any earlier point of the inbox.  The devices known to
    the catalog that pass the filter are what a following [get_bt_devices]
    call yields; with no device in the catalog it yields nothing.

    What is assumed: the start requests of the scan and the stop requests of
    its timer callback are accepted; the object tree, which may change in
    any way while the scan runs, stays as it is from the end of the scan
    through the enumeration, and binds each path once.  How long the wait
    lasts on the clock is outside the model. *)
Theorem scan_returns_after_timeout :
  forall r timeout w signals rest objects category filters,
    timers w = [] ->
    pending w = [] ->
    Forall (fun ev => ev <> TimeoutDue (next_source_id w)) signals ->
    inbox w = signals ++ TimeoutDue (next_source_id w) :: rest ->
    scan_accepted r timeout w signals ->
    (forall t,
        GetManagedObjects r (trace w ++ scan_actions r timeout w signals ++ t)
        = objects) ->
    dict_wf objects ->
    exists w' w'',
      scan r timeout w = (Ret PyNone, w')
      /\ trace w' = trace w ++ scan_actions r timeout w signals
      /\ In (ATimeoutAdd timeout (next_source_id w))
            (scan_actions r timeout w signals)
      /\ (forall n,
             fst (scan r timeout (set_inbox (firstn n signals) w)) = Blocked)
      /\ get_bt_devices r category filters w'
         = (Ret (matching_devices category filters objects), w'')
      /\ (paths_by_iface DEVICE_IFACE objects = [] ->
          matching_devices category filters objects = []).
Proof.
  intros r timeout w signals rest objects category filters
         Hts Hps HF0 Hin Hacc Hst Hwf.
  pose proof (idle_scan_prefix w signals Hts Hps HF0) as HF.
  pose proof (scan_run_exact r timeout w signals rest HF Hin Hacc) as Hrun.
  destruct (get_bt_devices_stable_from r category filters objects
              (snd (scan r timeout w))) as [w'' Hget].
  { rewrite Hrun. cbn [snd trace]. intros t. rewrite <- app_assoc. apply Hst. }
  { exact Hwf. }
  rewrite Hrun in Hget. cbn [snd] in Hget.
  eexists _, w''. split; [exact Hrun|].
  split; [reflexivity|].
  split; [apply in_scan_actions_timeout|].
  split.
  - intros n. apply (scan_blocked_exact r timeout _ (firstn n signals)).
    + now apply Forall_firstn.
    + reflexivity.
    + exact (proj1 Hacc).
  - split; [exact Hget|]. apply matching_devices_none.
Qed.

Lemma scan_returns_after_timeout_witness :
  GetManagedObjects appearing_remote [] = one_adapter
  /\ exists w' w'',
      scan appearing_remote 5 (fresh [keyboard_added; TimeoutDue 1])
      = (Ret PyNone, w')
      /\ trace w'
         = trace (fresh [keyboard_added; TimeoutDue 1])
             ++ scan_actions appearing_remote 5
                  (fresh [keyboard_added; TimeoutDue 1]) [keyboard_added]
      /\ In (ATimeoutAdd 5 1)
            (scan_actions appearing_remote 5
               (fresh [keyboard_added; TimeoutDue 1]) [keyboard_added])
      /\ (forall n,
             fst (scan appearing_remote 5
                       (set_inbox (firstn n [keyboard_added])
                                  (fresh [keyboard_added; TimeoutDue 1])))
             = Blocked)
      /\ get_bt_devices appearing_remote BT_KEYBOARD [] w'
         = (Ret (matching_devices BT_KEYBOARD [] keyboard_catalog), w'')
      /\ (paths_by_iface DEVICE_IFACE keyboard_catalog = [] ->
          matching_devices BT_KEYBOARD [] keyboard_catalog = []).
Proof.
  split; [reflexivity|].
  apply (scan_returns_after_timeout
           appearing_remote 5 (fresh [keyboard_added; TimeoutDue 1])
           [keyboard_added] [] keyboard_catalog BT_KEYBOARD []).
  - reflexivity.
  - reflexivity.
  - constructor; [discriminate|constructor].
  - reflexivity.
  - vm_compute. repeat split.
  - intros t. reflexivity.
  - unfold dict_wf. cbn.
    repeat constructor; cbn; intuition discriminate.
Defined.

(** C3, as stated, fails: the catalog holds a keyboard that passes the
    filter, and the scan hands back [None] rather than that device. *)
Lemma scan_hands_back_none :
  let out := scan (steady keyboard_catalog) 5 (fresh [TimeoutDue 1]) in
  fst out = Ret PyNone
  /\ matching_devices BT_ANY [] keyboard_catalog = [mkBtDevice dev_A]
  /\ fst out <> Ret (PyDevices (matching_devices BT_ANY [] keyboard_catalog)).
Proof.
  split; [reflexivity|]. split; [reflexivity|].
  intros H. discriminate H.
Qed.

(** C6, as the code has it.  A refused [StopDiscovery] before discovery is
    started, on some or on all adapters, does not abort the session: as long
    as every [StartDiscovery] is accepted (and the stop requests of the timer
    callback are), stop and start are issued on every adapter, the timer is
    armed, the loop is entered once and left once when the timer comes due,
    and the call returns. *)
Theorem scan_survives_stop_failures :
  forall r timeout w signals rest,
    timers w = [] ->
    pending w = [] ->
    Forall (fun ev => ev <> TimeoutDue (next_source_id w)) signals ->
    inbox w = signals ++ TimeoutDue (next_source_id w) :: rest ->
    (forall t p, method_fault r t p ADAPTER_IFACE StartDiscovery = None) ->
    (forall t p,
        In ALoopRun t ->
        method_fault r (trace w ++ t) p ADAPTER_IFACE StopDiscovery = None) ->
    exists w',
      scan r timeout w = (Ret PyNone, w')
      /\ (forall a,
             In a (paths_by_iface ADAPTER_IFACE
                     (GetManagedObjects r
                        (trace w ++ [AAddSignalReceiver rc_interfaces_added;
                                     AAddSignalReceiver rc_properties_changed])))
             -> In (ACall a ADAPTER_IFACE StopDiscovery) (trace w')
                /\ In (ACall a ADAPTER_IFACE StartDiscovery) (trace w'))
      /\ In (ATimeoutAdd timeout (next_source_id w)) (trace w')
      /\ count is_loop_run (trace w') = (count is_loop_run (trace w) + 1)%nat
      /\ count is_loop_quit (trace w') = (count is_loop_quit (trace w) + 1)%nat.
Proof.
  intros r timeout w signals rest Hts Hps HF0 Hin Hstart Hstop.
  pose proof (idle_scan_prefix w signals Hts Hps HF0) as HF.
  pose proof (scan_run r timeout w signals rest HF Hin Hstart Hstop) as Hrun.
  eexists. split; [exact Hrun|]. cbn [trace].
  destruct (count_scan_actions_loop r timeout w signals) as [Hr Hq].
  repeat split.
  - apply in_or_app. right. unfold scan_actions, scan_start_actions.
    rewrite !in_app_iff.
    destruct (in_restart_actions a _ H) as [Hs _]. intuition.
  - apply in_or_app. right. unfold scan_actions, scan_start_actions.
    rewrite !in_app_iff.
    destruct (in_restart_actions a _ H) as [_ Hs]. intuition.
  - apply in_or_app. right. apply in_scan_actions_timeout.
  - now rewrite count_app, Hr.
  - now rewrite count_app, Hq.
Qed.

Lemma scan_survives_stop_failures_witness :
  (forall p, method_fault (idle_stop_remote two_adapters)
                          [AAddSignalReceiver rc_interfaces_added;
                           AAddSignalReceiver rc_properties_changed;
                           AGetManagedObjects]
                          p ADAPTER_IFACE StopDiscovery
             = Some "org.bluez.Error.Failed")
  /\ exists w',
      scan (idle_stop_remote two_adapters) 5 (fresh [TimeoutDue 1])
      = (Ret PyNone, w')
      /\ (forall a,
             In a (paths_by_iface ADAPTER_IFACE
                     (GetManagedObjects (idle_stop_remote two_adapters)
                        (trace (fresh [TimeoutDue 1])
                           ++ [AAddSignalReceiver rc_interfaces_added;
                               AAddSignalReceiver rc_properties_changed])))
             -> In (ACall a ADAPTER_IFACE StopDiscovery) (trace w')
                /\ In (ACall a ADAPTER_IFACE StartDiscovery) (trace w'))
      /\ In (ATimeoutAdd 5 1) (trace w')
      /\ count is_loop_run (trace w') = 1%nat
      /\ count is_loop_quit (trace w') = 1%nat.
Proof.
  split; [reflexivity|].
  apply (scan_survives_stop_failures
           (idle_stop_remote two_adapters) 5 (fresh [TimeoutDue 1]) [] []).
  - reflexivity.
  - reflexivity.
  - constructor.
  - reflexivity.
  - reflexivity.
  - intros t p Hin. cbn.
    replace (existsb is_loop_run t) with true; [reflexivity|].
    symmetry. apply existsb_exists. exists ALoopRun. split; [exact Hin|reflexivity].
Defined.

(** C6, as stated, fails: when [StartDiscovery] is refused on the first
    adapter the exception leaves [scan]; no timer is armed, the loop is not
    entered and the second adapter is not touched. *)
Lemma scan_aborts_when_start_refused :
  let out := scan start_failing_remote 5 (fresh [TimeoutDue 1]) in
  fst out = Raise (DBusException "org.bluez.Error.NotReady")
  /\ count is_loop_run (trace (snd out)) = 0%nat
  /\ timers (snd out) = []
  /\ ~ In (ACall hci1 ADAPTER_IFACE StartDiscovery) (trace (snd out))
  /\ ~ (exists v, fst out = Ret v).
Proof.
  split; [reflexivity|]. split; [reflexivity|]. split; [reflexivity|].
  split.
  - cbn. intuition discriminate.
  - intros [v H]. discriminate H.
Qed.

(** C9, as the code has it.  Two scans in a row on one manager each
    subscribe, stop and start discovery on the adapters enumerated then, arm
    a timer of their own, which is gone when the call returns, and hand back
    [None].  The subscriptions are not reset: each call adds its two
    receivers to those already there, so the signals of the second session
    are logged against the receivers of both.

    What is assumed of the service, for each of the two scans: the start
    requests it issues and the stop requests of its timer callback are
    accepted.  The stop requests that precede the starts may be refused. *)
Theorem scan_twice_accumulates_receivers :
  forall r timeout1 timeout2 w signals1 signals2 rest,
    timers w = [] ->
    pending w = [] ->
    Forall (fun ev => ev <> TimeoutDue (next_source_id w)) signals1 ->
    Forall (fun ev => ev <> TimeoutDue (S (next_source_id w))) signals2 ->
    inbox w = signals1 ++ TimeoutDue (next_source_id w)
                :: signals2 ++ TimeoutDue (S (next_source_id w)) :: rest ->
    scan_accepted r timeout1 w signals1 ->
    scan_accepted r timeout2 (snd (scan r timeout1 w)) signals2 ->
    exists w1 w2,
      scan r timeout1 w = (Ret PyNone, w1)
      /\ scan r timeout2 w1 = (Ret PyNone, w2)
      /\ trace w1 = trace w ++ scan_actions r timeout1 w signals1
      /\ trace w2 = trace w1 ++ scan_actions r timeout2 w1 signals2
      /\ receivers w1
         = receivers w ++ [rc_interfaces_added; rc_properties_changed]
      /\ receivers w2
         = receivers w ++ [rc_interfaces_added; rc_properties_changed;
                           rc_interfaces_added; rc_properties_changed]
      /\ timers w1 = []
      /\ timers w2 = []
      /\ inbox w2 = rest
      /\ running w2 = false.
Proof.
  intros r timeout1 timeout2 w signals1 signals2 rest
         Hts Hps HF1 HF0 Hin Hacc1 Hacc2.
  pose proof (idle_scan_prefix w signals1 Hts Hps HF1) as HF1'.
  assert (HF2 : Forall (fun ev =>
                          inert [S (next_source_id w)] (pending w) ev = true)
                       signals2).
  { rewrite Hps. eapply Forall_impl; [|exact HF0].
    intros e. apply not_due_inert. }
  pose proof (scan_run_exact r timeout1 w signals1 _ HF1' Hin Hacc1) as Hrun1.
  rewrite Hrun1 in Hacc2. cbn [snd] in Hacc2.
  rewrite Hts in Hrun1, Hacc2. cbn [app filter] in Hrun1, Hacc2.
  rewrite Nat.eqb_refl in Hrun1, Hacc2. cbn [negb] in Hrun1, Hacc2.
  match type of Hrun1 with _ = (_, ?x) => set (w1 := x) in * end.
  pose proof (scan_run_exact r timeout2 w1 signals2 rest HF2 eq_refl Hacc2)
    as Hrun2.
  cbn [timers next_source_id w1 app filter] in Hrun2.
  rewrite Nat.eqb_refl in Hrun2. cbn [negb] in Hrun2.
  eexists w1, _. split; [exact Hrun1|]. split; [exact Hrun2|].
  subst w1. cbn [trace receivers timers inbox running next_source_id].
  repeat split. now rewrite <- app_assoc.
Qed.

Lemma scan_twice_accumulates_receivers_witness :
  (forall w1,
      w1 = snd (scan (bluez_like_remote keyboard_catalog) 5
                     (fresh [TimeoutDue 1; keyboard_added; TimeoutDue 2])) ->
      method_fault (bluez_like_remote keyboard_catalog)
                   (trace w1 ++ [AAddSignalReceiver rc_interfaces_added;
                                 AAddSignalReceiver rc_properties_changed;
                                 AGetManagedObjects])
                   hci0 ADAPTER_IFACE StopDiscovery
      = Some "org.bluez.Error.Failed")
  /\ exists w1 w2,
      scan (bluez_like_remote keyboard_catalog) 5
           (fresh [TimeoutDue 1; keyboard_added; TimeoutDue 2])
      = (Ret PyNone, w1)
      /\ scan (bluez_like_remote keyboard_catalog) 7 w1 = (Ret PyNone, w2)
      /\ trace w1
         = trace (fresh [TimeoutDue 1; keyboard_added; TimeoutDue 2])
             ++ scan_actions (bluez_like_remote keyboard_catalog) 5
                  (fresh [TimeoutDue 1; keyboard_added; TimeoutDue 2]) []
      /\ trace w2
         = trace w1
             ++ scan_actions (bluez_like_remote keyboard_catalog) 7 w1
                  [keyboard_added]
      /\ receivers w1 = [rc_interfaces_added; rc_properties_changed]
      /\ receivers w2 = [rc_interfaces_added; rc_properties_changed;
                         rc_interfaces_added; rc_properties_changed]
      /\ timers w1 = []
      /\ timers w2 = []
      /\ inbox w2 = []
      /\ running w2 = false.
Proof.
  split; [intros w1 ->; reflexivity|].
  apply (scan_twice_accumulates_receivers
           (bluez_like_remote keyboard_catalog) 5 7
           (fresh [TimeoutDue 1; keyboard_added; TimeoutDue 2])
           [] [keyboard_added] []).
  - reflexivity.
  - reflexivity.
  - constructor.
  - constructor; [discriminate|constructor].
  - reflexivity.
  - vm_compute. repeat split.
  - vm_compute. repeat split.
Defined.

(** C9, as stated, fails: the second scan on a manager starts with the
    subscriptions of the first.  The same signal that a first scan logs once
    is logged twice by the second, which ends with four receivers. *)
Lemma second_scan_keeps_first_subscriptions :
  let r := steady keyboard_catalog in
  let first := scan r 5 (fresh [keyboard_added; TimeoutDue 1]) in
  let w1 := snd (scan r 5 (fresh [TimeoutDue 1; keyboard_added; TimeoutDue 2])) in
  let second := scan r 5 w1 in
  fst first = Ret PyNone
  /\ fst second = Ret PyNone
  /\ count is_signal_record (trace (snd first)) = 1%nat
  /\ count is_signal_record (trace (snd second)) = 2%nat
  /\ List.length (receivers w1) = 2%nat
  /\ List.length (receivers (snd second)) = 4%nat
  /\ receivers (snd second) <> receivers w1.
Proof.
  repeat split; try reflexivity.
  intros H. discriminate H.
Qed.

(** * Further properties of the module *)

(** ** Enumeration *)

(** X1.  [_get_objects_by_iface] asks for the object tree once and lists a
    path exactly when the tree binds it to an object whose mapping for the
    interface is there and not empty; an interface with an empty property
    mapping does not count. *)
Theorem enumeration_lists_nonempty_interfaces :
  forall r iface_name w path,
    exists paths,
      _get_objects_by_iface r iface_name w
      = (Ret paths, extend [AGetManagedObjects] w)
      /\ (In path paths <->
          exists ifaces p props,
            In (path, ifaces) (GetManagedObjects r (trace w))
            /\ dict_get ifaces iface_name = Some (p :: props)).
Proof.
  intros r iface_name w path. eexists. split; [reflexivity|].
  unfold paths_by_iface. rewrite in_map_iff. split.
  - intros ([k ifaces] & <- & Hin). apply filter_In in Hin as [Hin Himp].
    cbn [fst snd] in *. unfold implements in Himp.
    destruct (dict_get ifaces iface_name) as [[|p props]|] eqn:E;
      try discriminate Himp.
    exists ifaces, p, props. auto.
  - intros (ifaces & p & props & Hin & E).
    exists (path, ifaces). split; [reflexivity|].
    apply filter_In. split; [assumption|].
    cbn [snd]. unfold implements. now rewrite E.
Qed.

Lemma filter_device_any :
  forall device obj category filters w,
    exists b logged,
      filter_device device obj category filters w = (Ret b, extend logged w)
      /\ (logged = [] \/ exists k, logged = [ALog INFO (PropertyNotFound k device)])
      /\ (b = true <-> filter_body obj category filters = inr true).
Proof.
  intros device obj category filters w.
  unfold filter_device, try_except, lift.
  pose proof (filter_body_raises obj category filters) as R.
  destruct (filter_body obj category filters) as [e|b].
  - destruct (R e eq_refl) as [k ->].
    exists false, [ALog INFO (PropertyNotFound k device)].
    split; [reflexivity|]. split; [eauto|]. split; discriminate.
  - exists b, []. unfold ret. rewrite extend_nil.
    split; [reflexivity|]. split; [auto|]. split; congruence.
Qed.

Lemma Forall_enumeration_app :
  forall a b,
    Forall (fun x => is_enumeration_action x = true) a ->
    Forall (fun x => is_enumeration_action x = true) b ->
    Forall (fun x => is_enumeration_action x = true) (a ++ b).
Proof. intros a b Ha Hb. apply Forall_app. now split. Qed.

Lemma get_bt_devices_loop_any :
  forall r category filters devices w,
    exists o added,
      get_bt_devices_loop r category filters devices w = (o, extend added w)
      /\ ((exists yielded, o = Ret yielded
                           /\ List.length yielded = count is_yield added)
          \/ exists k, o = Raise (KeyError k))
      /\ Forall (fun a => is_enumeration_action a = true) added.
Proof.
  intros r category filters devices.
  induction devices as [|d devices IH]; intros w.
  - exists (Ret []), []. unfold get_bt_devices_loop, ret.
    rewrite extend_nil. split; [reflexivity|]. split; [|constructor].
    left. exists []. split; reflexivity.
  - cbn [get_bt_devices_loop].
    unfold bind at 1. unfold get_object_by_path, bind at 1.
    unfold ObjectManager_GetManagedObjects, lift at 1, dict_index at 1.
    destruct (dict_get (GetManagedObjects r (trace w)) d) as [ifaces|].
    + unfold ret at 1. unfold bind at 1, lift at 1, dict_index at 1.
      destruct (dict_get ifaces DEVICE_IFACE) as [obj|].
      * unfold ret at 1. unfold bind at 1.
        destruct (filter_device_any d obj category filters
                                    (emit_w AGetManagedObjects w))
          as (b & logged & -> & Hlog & _).
        assert (Hl : Forall (fun a => is_enumeration_action a = true) logged).
        { destruct Hlog as [->|[k ->]]; repeat constructor. }
        destruct b.
        -- unfold bind at 1, emit at 1. unfold bind at 1.
           destruct (IH (emit_w (AYield d)
                           (extend logged (emit_w AGetManagedObjects w))))
             as (o & added & -> & Ho & Hadd).
           exists (match o with
                   | Ret rest => Ret (mkBtDevice d :: rest)
                   | Raise e => Raise e
                   | Blocked => Blocked
                   end),
             ([AGetManagedObjects] ++ logged ++ [AYield d] ++ added).
           split.
           { destruct Ho as [(ys & -> & _)|(k & ->)];
               unfold ret, extend, emit_w; cbn;
               rewrite <- !app_assoc; reflexivity. }
           split.
           { destruct Ho as [(ys & -> & Hlen)|(k & ->)]; [left|right; eauto].
             eexists. split; [reflexivity|].
             rewrite !count_app. cbn [List.length].
             assert (count is_yield logged = 0%nat) as ->.
             { destruct Hlog as [->|[k ->]]; reflexivity. }
             cbn. lia. }
           repeat apply Forall_enumeration_app; auto; repeat constructor.
        -- destruct (IH (extend logged (emit_w AGetManagedObjects w)))
             as (o & added & -> & Ho & Hadd).
           exists o, ([AGetManagedObjects] ++ logged ++ added).
           split.
           { unfold extend, emit_w; cbn; rewrite <- !app_assoc; reflexivity. }
           split.
           { destruct Ho as [(ys & -> & Hlen)|(k & ->)]; [left|right; eauto].
             eexists. split; [reflexivity|].
             rewrite !count_app.
             assert (count is_yield logged = 0%nat) as ->.
             { destruct Hlog as [->|[k ->]]; reflexivity. }
             cbn. lia. }
           repeat apply Forall_enumeration_app; auto; repeat constructor.
      * exists (Raise (KeyError DEVICE_IFACE)), [AGetManagedObjects].
        split; [reflexivity|]. split; [right; eauto|repeat constructor].
    + exists (Raise (KeyError d)), [AGetManagedObjects].
      split; [reflexivity|]. split; [right; eauto|repeat constructor].
Qed.

(** X2.  Whatever object trees the remote service answers with,
    [get_bt_devices] is a pure enumeration: it only asks for the object tree,
    yields and reports missing properties.  It issues no method call and no
    property write, it leaves the loop, the timers, the subscriptions and the
    pending calls alone, and it never blocks.  When it completes, it has
    yielded exactly as many devices as it hands back. *)
Theorem get_bt_devices_only_enumerates :
  forall r category filters w,
    exists o added,
      get_bt_devices r category filters w = (o, extend added w)
      /\ o <> Blocked
      /\ (forall yielded,
             o = Ret yielded -> List.length yielded = count is_yield added)
      /\ Forall (fun a => is_enumeration_action a = true) added
      /\ count is_request added = 0%nat.
Proof.
  intros r category filters w.
  unfold get_bt_devices, _get_objects_by_iface, bind at 1 2.
  unfold ObjectManager_GetManagedObjects, ret.
  destruct (get_bt_devices_loop_any r category filters
              (paths_by_iface DEVICE_IFACE (GetManagedObjects r (trace w)))
              (emit_w AGetManagedObjects w))
    as (o & added & -> & Ho & Hadd).
  exists o, (AGetManagedObjects :: added).
  split.
  { unfold extend, emit_w; cbn; rewrite <- !app_assoc; reflexivity. }
  split.
  { destruct Ho as [(ys & -> & _)|(k & ->)]; discriminate. }
  split.
  { intros yielded ->.
    destruct Ho as [(ys & Hys & Hlen)|(k & Hk)]; [|discriminate Hk].
    inversion Hys; subst ys. exact Hlen. }
  assert (Hall : Forall (fun a => is_enumeration_action a = true)
                        (AGetManagedObjects :: added)).
  { constructor; [reflexivity|assumption]. }
  split; [exact Hall|].
  unfold count. clear - Hall.
  induction Hall as [|a l Ha _ IH]; [reflexivity|].
  cbn [filter].
  destruct a; try discriminate Ha; cbn [is_request]; exact IH.
Qed.

Lemma get_bt_devices_loop_requests :
  forall r category filters objects,
    (forall t, GetManagedObjects r t = objects) ->
    forall items w,
      (forall item, In item items ->
                    dict_get objects (fst item) = Some (snd item)) ->
      exists added,
        get_bt_devices_loop r category filters
                            (paths_by_iface DEVICE_IFACE items) w
        = (Ret (matching_devices category filters items), extend added w)
        /\ count is_get_managed added
           = List.length (paths_by_iface DEVICE_IFACE items).
Proof.
  intros r category filters objects Hst items.
  induction items as [|[path ifaces] items IH]; intros w Hget.
  - exists []. unfold ret. cbn. rewrite extend_nil. auto.
  - assert (Hrest : forall item, In item items ->
                      dict_get objects (fst item) = Some (snd item)).
    { intros item Hin. apply Hget. now right. }
    pose proof (Hget (path, ifaces) (or_introl eq_refl)) as Hhere.
    cbn [fst snd] in Hhere.
    unfold paths_by_iface, matching_devices, device_passes, implements.
    cbn [filter map fst snd].
    destruct (dict_get ifaces DEVICE_IFACE) as [[|p props]|] eqn:Ed;
      try (apply (IH w Hrest)).
    cbn [map get_bt_devices_loop List.length].
    erewrite bind_ret
      by (apply get_object_by_path_found; rewrite Hst; exact Hhere).
    erewrite bind_ret
      by (unfold lift, dict_index; rewrite Ed; reflexivity).
    destruct (filter_device_any path (p :: props) category filters
                                (emit_w AGetManagedObjects w))
      as (b & logged & Hf & Hlog & Hb).
    erewrite bind_ret by exact Hf.
    assert (Hl : count is_get_managed logged = 0%nat).
    { destruct Hlog as [->|[k ->]]; reflexivity. }
    destruct b.
    + rewrite (proj1 Hb eq_refl).
      destruct (IH (emit_w (AYield path)
                      (extend logged (emit_w AGetManagedObjects w))) Hrest)
        as (added & E & Hc).
      erewrite bind_ret by reflexivity.
      unfold paths_by_iface, implements, matching_devices, device_passes in E.
      erewrite bind_ret by exact E.
      exists ([AGetManagedObjects] ++ logged ++ [AYield path] ++ added).
      split.
      * unfold ret, extend, emit_w; cbn; rewrite <- !app_assoc; reflexivity.
      * rewrite !count_app, Hl.
        unfold paths_by_iface, implements in Hc. rewrite Hc. reflexivity.
    + assert (Hno : match filter_body (p :: props) category filters with
                    | inr true => true
                    | _ => false
                    end = false).
      { destruct (filter_body (p :: props) category filters) as [e|[|]];
          try reflexivity.
        now specialize (proj2 Hb eq_refl). }
      rewrite Hno.
      destruct (IH (extend logged (emit_w AGetManagedObjects w)) Hrest)
        as (added & E & Hc).
      unfold paths_by_iface, implements, matching_devices, device_passes in E.
      rewrite E.
      exists ([AGetManagedObjects] ++ logged ++ added).
      split.
      * unfold extend, emit_w; cbn; rewrite <- !app_assoc; reflexivity.
      * rewrite !count_app, Hl.
        unfold paths_by_iface, implements in Hc. rewrite Hc. reflexivity.
Qed.

(** X3.  Against an object tree that does not change, [get_bt_devices]
    completes and hands back, in the order of the tree, exactly the objects
    that carry a non-empty [org.bluez.Device1] mapping passing the filter.
    It asks for the whole object tree once to enumerate and once more for
    every device object, matching or not. *)
Theorem get_bt_devices_stable_catalog :
  forall r category filters objects w,
    (forall t, GetManagedObjects r t = objects) ->
    dict_wf objects ->
    exists added,
      get_bt_devices r category filters w
      = (Ret (matching_devices category filters objects), extend added w)
      /\ count is_get_managed added
         = S (List.length (paths_by_iface DEVICE_IFACE objects))
      /\ (forall path,
             In (mkBtDevice path) (matching_devices category filters objects)
             <-> exists ifaces p props,
                 In (path, ifaces) objects
                 /\ dict_get ifaces DEVICE_IFACE = Some (p :: props)
                 /\ filter_body (p :: props) category filters = inr true).
Proof.
  intros r category filters objects w Hst Hwf.
  unfold get_bt_devices, _get_objects_by_iface, bind at 1 2.
  unfold ObjectManager_GetManagedObjects, ret. rewrite Hst.
  destruct (get_bt_devices_loop_requests r category filters objects Hst
              objects (emit_w AGetManagedObjects w))
    as (added & E & Hc).
  { intros [k v] Hin. now apply dict_get_wf_in. }
  rewrite E. exists (AGetManagedObjects :: added).
  split.
  { unfold extend, emit_w; cbn; rewrite <- !app_assoc; reflexivity. }
  split.
  { change (AGetManagedObjects :: added) with ([AGetManagedObjects] ++ added).
    rewrite count_app, Hc. reflexivity. }
  intros path. unfold matching_devices. rewrite in_map_iff. split.
  - intros ([k ifaces] & Hk & Hin). apply filter_In in Hin as [Hin Hp].
    cbn [fst] in Hk. inversion Hk; subst k.
    unfold device_passes in Hp. cbn [snd] in Hp.
    destruct (dict_get ifaces DEVICE_IFACE) as [[|p props]|] eqn:Ed;
      try discriminate Hp.
    destruct (filter_body (p :: props) category filters) as [e|[|]] eqn:Ef;
      try discriminate Hp.
    exists ifaces, p, props. auto.
  - intros (ifaces & p & props & Hin & Ed & Ef).
    exists (path, ifaces). split; [reflexivity|].
    apply filter_In. split; [assumption|].
    unfold device_passes. cbn [snd]. now rewrite Ed, Ef.
Qed.

Lemma get_bt_devices_stable_catalog_witness :
  exists added,
    get_bt_devices (steady mixed_catalog) BT_KEYBOARD [("Paired", VBool false)]
                   (fresh [])
    = (Ret (matching_devices BT_KEYBOARD [("Paired", VBool false)]
                             mixed_catalog),
       extend added (fresh []))
    /\ count is_get_managed added
       = S (List.length (paths_by_iface DEVICE_IFACE mixed_catalog))
    /\ (forall path,
           In (mkBtDevice path)
              (matching_devices BT_KEYBOARD [("Paired", VBool false)]
                                mixed_catalog)
           <-> exists ifaces p props,
               In (path, ifaces) mixed_catalog
               /\ dict_get ifaces DEVICE_IFACE = Some (p :: props)
               /\ filter_body (p :: props) BT_KEYBOARD
                              [("Paired", VBool false)] = inr true).
Proof.
  apply (get_bt_devices_stable_catalog
           (steady mixed_catalog) BT_KEYBOARD [("Paired", VBool false)]
           mixed_catalog (fresh [])).
  - reflexivity.
  - unfold dict_wf. cbn.
    repeat constructor; cbn; intuition discriminate.
Defined.

Lemma matching_devices_default :
  forall objects,
    matching_devices BT_ANY [] objects
    = map mkBtDevice (paths_by_iface DEVICE_IFACE objects).
Proof.
  intros objects. unfold matching_devices, paths_by_iface.
  induction objects as [|[path ifaces] objects IH]; [reflexivity|].
  cbn [filter]. unfold device_passes at 1, implements at 1. cbn [snd].
  destruct (dict_get ifaces DEVICE_IFACE) as [[|p props]|];
    try exact IH.
  change (filter_body (p :: props) BT_ANY []) with (@inr exn bool true).
  cbn [map fst]. now rewrite IH.
Qed.

(** X4.  Called with its default arguments (any class, no filter) against
    an object tree that does not change, [get_bt_devices] yields every
    enumerated device object, whatever its properties are. *)
Theorem get_bt_devices_defaults_yield_all :
  forall r objects w,
    (forall t, GetManagedObjects r t = objects) ->
    dict_wf objects ->
    fst (get_bt_devices r BT_ANY [] w)
    = Ret (map mkBtDevice (paths_by_iface DEVICE_IFACE objects)).
Proof.
  intros r objects w Hst Hwf.
  destruct (get_bt_devices_stable r BT_ANY [] objects w Hst Hwf) as [w' E].
  rewrite E. cbn [fst]. now rewrite matching_devices_default.
Qed.

Lemma get_bt_devices_defaults_yield_all_witness :
  fst (get_bt_devices (steady mixed_catalog) BT_ANY [] (fresh []))
  = Ret (map mkBtDevice (paths_by_iface DEVICE_IFACE mixed_catalog)).
Proof.
  apply (get_bt_devices_defaults_yield_all (steady mixed_catalog)
           mixed_catalog (fresh [])).
  - reflexivity.
  - unfold dict_wf. cbn.
    repeat constructor; cbn; intuition discriminate.
Defined.

(** ** The filter *)

Lemma dict_get_app_l :
  forall (V : Type) (d d' : dict V) k v,
    dict_get d k = Some v -> dict_get (d ++ d') k = Some v.
Proof.
  induction d as [|[k' v'] d IH]; intros d' k v H; simpl in *.
  - discriminate.
  - destruct (String.eqb k k'); [assumption|now apply IH].
Qed.

(** X5.  A device yielded for a class and a set of filters is also yielded
    for the wildcard class and for any leading part of the filters: naming
    a class or adding filters can only narrow the result. *)
Theorem filters_only_narrow :
  forall device obj category filters more w w',
    filter_device device obj category (filters ++ more) w = (Ret true, w') ->
    filter_device device obj BT_ANY filters w = (Ret true, w).
Proof.
  intros device obj category filters more w w' H.
  destruct (filter_device_any device obj category (filters ++ more) w)
    as (b & logged & E & _ & Hb).
  rewrite E in H. assert (Hbt : b = true) by congruence.
  apply (proj1 Hb) in Hbt.
  apply filter_body_true in Hbt as [_ Hall].
  assert (Hany : filter_body obj BT_ANY filters = inr true).
  { apply filter_body_true. split; [now left|].
    intros k v Hk. apply Hall. now apply dict_get_app_l. }
  unfold filter_device, try_except, lift. now rewrite Hany.
Qed.

Lemma filters_only_narrow_witness :
  filter_device dev_A keyboard_props BT_ANY [("Paired", VBool false)]
                (fresh [])
  = (Ret true, fresh []).
Proof.
  apply (filters_only_narrow dev_A keyboard_props BT_KEYBOARD
           [("Paired", VBool false)] [("Name", VStr "K380")]
           (fresh []) (fresh [])).
  reflexivity.
Defined.

Lemma dict_get_some_in :
  forall (V : Type) (d : dict V) k v,
    dict_get d k = Some v -> In (k, v) d.
Proof.
  induction d as [|[k' v'] d IH]; intros k v H; simpl in *.
  - discriminate.
  - destruct (String.eqb_spec k k') as [->|_].
    + inversion H; subst. now left.
    + right. now apply IH.
Qed.

Lemma dict_get_permutation :
  forall (V : Type) (d d' : dict V) k,
    dict_wf d -> Permutation d d' -> dict_get d k = dict_get d' k.
Proof.
  intros V d d' k Hwf Hp.
  assert (Hwf' : dict_wf d').
  { unfold dict_wf, dict_keys in *.
    eapply Permutation_NoDup; [|exact Hwf]. now apply Permutation_map. }
  destruct (dict_get d k) as [v|] eqn:E.
  - symmetry. apply dict_get_wf_in; [assumption|].
    eapply Permutation_in; [exact Hp|]. now apply dict_get_some_in.
  - destruct (dict_get d' k) as [v|] eqn:E'; [|reflexivity].
    apply dict_get_some_in in E'.
    apply (Permutation_in _ (Permutation_sym Hp)) in E'.
    apply (dict_get_wf_in _ _ _ _ Hwf) in E'. congruence.
Qed.

(** X6.  Whether a device is yielded does not depend on the order in which
    the filters are written: two filter dictionaries with the same bindings
    select alike.  (The order only decides which missing property, if any,
    gets reported.) *)
Theorem filter_order_irrelevant :
  forall device obj category filters filters' w,
    dict_wf filters ->
    Permutation filters filters' ->
    fst (filter_device device obj category filters w)
    = fst (filter_device device obj category filters' w).
Proof.
  intros device obj category filters filters' w Hwf Hp.
  destruct (filter_device_any device obj category filters w)
    as (b & l & -> & _ & Hb).
  destruct (filter_device_any device obj category filters' w)
    as (b' & l' & -> & _ & Hb').
  cbn [fst]. f_equal.
  assert (Hiff : filter_body obj category filters = inr true
                 <-> filter_body obj category filters' = inr true).
  { rewrite !filter_body_true. split; intros [Hc Hall]; (split; [exact Hc|]);
      intros k v Hk; apply Hall.
    - now rewrite (dict_get_permutation _ filters filters' k Hwf Hp).
    - now rewrite <- (dict_get_permutation _ filters filters' k Hwf Hp). }
  destruct b, b'; try reflexivity.
  - assert (false = true) as X;
      [apply Hb', Hiff, Hb; reflexivity|discriminate X].
  - assert (false = true) as X;
      [apply Hb, Hiff, Hb'; reflexivity|discriminate X].
Qed.

Lemma filter_order_irrelevant_witness :
  fst (filter_device dev_A [("Paired", VBool false)] BT_ANY
         [("Name", VStr "K380"); ("Paired", VBool false)] (fresh []))
  = fst (filter_device dev_A [("Paired", VBool false)] BT_ANY
           [("Paired", VBool false); ("Name", VStr "K380")] (fresh [])).
Proof.
  apply (filter_order_irrelevant dev_A [("Paired", VBool false)] BT_ANY
           [("Name", VStr "K380"); ("Paired", VBool false)]
           [("Paired", VBool false); ("Name", VStr "K380")] (fresh [])).
  - unfold dict_wf. cbn. repeat constructor; cbn; intuition discriminate.
  - apply perm_swap.
Defined.

(** X7.  When the first enumerated device is still in the object tree at the
    time it is read but no longer carries [org.bluez.Device1], the lookup of
    the interface raises [KeyError] out of [get_bt_devices]: nothing is
    yielded and the remaining devices are not read. *)
Theorem device_interface_lost :
  forall r category filters w device rest ifaces,
    paths_by_iface DEVICE_IFACE (GetManagedObjects r (trace w))
    = device :: rest ->
    dict_get (GetManagedObjects r (trace w ++ [AGetManagedObjects])) device
    = Some ifaces ->
    dict_get ifaces DEVICE_IFACE = None ->
    get_bt_devices r category filters w
    = (Raise (KeyError DEVICE_IFACE),
       extend [AGetManagedObjects; AGetManagedObjects] w).
Proof.
  intros r category filters w device rest ifaces Henum Hobj Hif.
  unfold get_bt_devices, _get_objects_by_iface, bind at 1 2.
  unfold ObjectManager_GetManagedObjects, ret. rewrite Henum.
  cbn [get_bt_devices_loop].
  erewrite bind_ret by (apply get_object_by_path_found; exact Hobj).
  unfold bind, lift, dict_index. rewrite Hif.
  unfold raise, extend, emit_w. cbn. now rewrite <- app_assoc.
Qed.

Lemma device_interface_lost_witness :
  get_bt_devices demoting_remote BT_ANY [] (fresh [])
  = (Raise (KeyError DEVICE_IFACE),
     extend [AGetManagedObjects; AGetManagedObjects] (fresh [])).
Proof.
  apply (device_interface_lost demoting_remote BT_ANY [] (fresh [])
           dev_A [] [("org.freedesktop.DBus.Properties", [])]).
  - reflexivity.
  - reflexivity.
  - reflexivity.
Defined.

(** ** Powering an adapter: errors and reach *)

(** X8.  [ensure_powered] raises only when the read of [Powered] is
    refused, and then before anything else happens.  Once the read has
    answered, the call hands back [None] whatever the answer to the
    power-set request is.  All it ever does on the bus is read [Powered] and
    set [Powered] to [True] on its own adapter; the loop, the timers and the
    subscriptions are left alone. *)
Theorem ensure_powered_reach :
  forall r self w,
    exists o added,
      ensure_powered r self w = (o, extend added w)
      /\ (forall msg,
             Get r (trace w) (adapter_path self) IFACE "Powered" = inl msg ->
             o = Raise (DBusException msg)
             /\ added = [AGet (adapter_path self) IFACE "Powered"])
      /\ (forall v,
             Get r (trace w) (adapter_path self) IFACE "Powered" = inr v ->
             o = Ret PyNone)
      /\ (forall a,
             In a added ->
             a = AGet (adapter_path self) IFACE "Powered"
             \/ a = ASet (adapter_path self) IFACE "Powered" (VBool true)
             \/ exists lvl rec, a = ALog lvl rec).
Proof.
  intros r self w.
  unfold ensure_powered, bind, Properties_Get, log, emit.
  destruct (Get r (trace w) (adapter_path self) IFACE "Powered")
    as [msg|v] eqn:EG.
  - exists (Raise (DBusException msg)),
      [AGet (adapter_path self) IFACE "Powered"].
    split; [reflexivity|].
    split; [intros m H; inversion H; auto|].
    split; [intros v H; discriminate H|].
    intros a [<-|[]]. now left.
  - destruct (truthy v).
    + exists (Ret PyNone),
        [AGet (adapter_path self) IFACE "Powered";
         ALog INFO (PoweringOn (last_segment (adapter_path self)));
         ALog INFO DeviceAlreadyPowered].
      split.
      { unfold ret, extend, emit_w. cbn. now rewrite <- !app_assoc. }
      split; [intros m H; discriminate H|].
      split; [reflexivity|].
      intros a [<-|[<-|[<-|[]]]]; eauto.
    + unfold try_except, set_bool_prop, Properties_Set, bind.
      set (w1 := emit_w _ (emit_w _ w)).
      destruct (Set_fault r (trace w1) (adapter_path self) IFACE "Powered"
                          (VBool true)) as [msg|]; subst w1.
      * exists (Ret PyNone),
          [AGet (adapter_path self) IFACE "Powered";
           ALog INFO (PoweringOn (last_segment (adapter_path self)));
           ASet (adapter_path self) IFACE "Powered" (VBool true);
           ALog ERROR (FailedToPowerOn msg)].
        split.
        { unfold ret, extend, emit_w. cbn. now rewrite <- !app_assoc. }
        split; [intros m H; discriminate H|].
        split; [reflexivity|].
        intros a [<-|[<-|[<-|[<-|[]]]]]; eauto.
      * exists (Ret PyNone),
          [AGet (adapter_path self) IFACE "Powered";
           ALog INFO (PoweringOn (last_segment (adapter_path self)));
           ASet (adapter_path self) IFACE "Powered" (VBool true);
           ALog INFO PoweredOn].
        split.
        { unfold ret, extend, emit_w. cbn. now rewrite <- !app_assoc. }
        split; [intros m H; discriminate H|].
        split; [reflexivity|].
        intros a [<-|[<-|[<-|[<-|[]]]]]; eauto.
Qed.

(** ** The name logged for an adapter *)

Lemma last_segment_from_no_slash :
  forall s acc,
    has_slash s = false -> last_segment_from acc s = (acc ++ s)%string.
Proof.
  induction s as [|c s IH]; intros acc H; cbn [last_segment_from].
  - clear H. induction acc as [|a acc IHa]; [reflexivity|].
    cbn. now rewrite <- IHa.
  - cbn [has_slash] in H. apply orb_false_iff in H as [Hc Hs].
    rewrite Hc, IH by assumption.
    clear. induction acc as [|a acc IHa]; [reflexivity|].
    cbn. now rewrite IHa.
Qed.

Lemma last_segment_from_clean :
  forall s acc,
    has_slash acc = false -> has_slash (last_segment_from acc s) = false.
Proof.
  induction s as [|c s IH]; intros acc H; cbn [last_segment_from].
  - exact H.
  - destruct (Ascii.eqb c "/"%char) eqn:Ec.
    + now apply IH.
    + apply IH. clear IH. induction acc as [|a acc IHa].
      * cbn. now rewrite Ec.
      * cbn in *. apply orb_false_iff in H as [Ha Hacc].
        now rewrite Ha, IHa.
Qed.

Lemma last_segment_from_after_slash :
  forall a acc b,
    last_segment_from acc (a ++ String "/"%char b)%string
    = last_segment_from EmptyString b.
Proof.
  induction a as [|c a IH]; intros acc b.
  - reflexivity.
  - cbn [String.append last_segment_from].
    destruct (Ascii.eqb c "/"%char); apply IH.
Qed.

(** X9.  The name [ensure_powered] logs for an adapter is what follows the
    last ['/'] of its object path: it never contains a ['/'], and a path
    [a/b] whose [b] has no ['/'] gives [b]. *)
Theorem last_segment_of_path :
  forall a b,
    has_slash b = false ->
    last_segment (a ++ String "/"%char b)%string = b
    /\ has_slash (last_segment a) = false.
Proof.
  intros a b H. unfold last_segment. split.
  - rewrite last_segment_from_after_slash.
    now rewrite last_segment_from_no_slash.
  - now apply last_segment_from_clean.
Qed.

Lemma last_segment_of_path_witness :
  last_segment ("/org/bluez" ++ String "/"%char "hci0")%string = "hci0"
  /\ has_slash (last_segment "/org/bluez") = false.
Proof.
  apply (last_segment_of_path "/org/bluez" "hci0"). reflexivity.
Defined.

(** ** Pairing: every way a call can end *)

(** X10.  On a manager between calls, whatever the remote service does,
    [pair] never raises.  Either no answer to [Pair] for this device is in
    the inbox and the call stays blocked, or the call hands back [None] and
    leaves the manager between calls again: the loop stopped, no timer
    armed, no call pending, the subscriptions as they were. *)
Theorem pair_never_raises :
  forall r self w,
    timers w = [] ->
    pending w = [] ->
    (Forall (fun ev => reply_record self ev = None) (inbox w)
     /\ fst (pair r self w) = Blocked)
    \/ (exists w',
           pair r self w = (Ret PyNone, w')
           /\ (exists ev, In ev (inbox w) /\ reply_record self ev <> None)
           /\ timers w' = []
           /\ pending w' = []
           /\ running w' = false
           /\ receivers w' = receivers w).
Proof.
  intros r self w Hts Hps.
  assert (Hinert : forall evs,
             Forall (fun ev => reply_record self ev = None) evs ->
             Forall (fun ev => inert (timers w) (pending w ++ [device_path self])
                                     ev = true) evs).
  { intros evs H. rewrite Hts, Hps. cbn [app].
    eapply Forall_impl; [|exact H]. intros e. apply no_reply_inert. }
  destruct (inbox_split self (inbox w))
    as [Hnone|(prefix & reply & rest & rec & Hin & HF & Hr)].
  - left. split; [assumption|].
    apply (pair_blocked r self w (inbox w)); [now apply Hinert|reflexivity].
  - right.
    pose proof (pair_run r self w prefix reply rest rec (Hinert _ HF) Hr Hin)
      as Hrun.
    cbv zeta in Hrun. eexists. split; [exact Hrun|].
    cbn [timers pending running receivers].
    split.
    { exists reply. split; [rewrite Hin; apply in_elt|congruence]. }
    split; [assumption|].
    split; [|auto].
    rewrite Hps. cbn [app remove_first]. now rewrite String.eqb_refl.
Qed.

Lemma pair_never_raises_witness :
  (Forall (fun ev => reply_record (mkBtDevice dev_A) ev = None)
          (inbox (fresh [paired_changed; MethodError dev_A "Failed"]))
   /\ fst (pair (refusing_remote keyboard_catalog) (mkBtDevice dev_A)
                (fresh [paired_changed; MethodError dev_A "Failed"]))
      = Blocked)
  \/ (exists w',
         pair (refusing_remote keyboard_catalog) (mkBtDevice dev_A)
              (fresh [paired_changed; MethodError dev_A "Failed"])
         = (Ret PyNone, w')
         /\ (exists ev,
                In ev (inbox (fresh [paired_changed;
                                     MethodError dev_A "Failed"]))
                /\ reply_record (mkBtDevice dev_A) ev <> None)
         /\ timers w' = []
         /\ pending w' = []
         /\ running w' = false
         /\ receivers w'
            = receivers (fresh [paired_changed; MethodError dev_A "Failed"])).
Proof.
  apply (pair_never_raises (refusing_remote keyboard_catalog)
           (mkBtDevice dev_A)
           (fresh [paired_changed; MethodError dev_A "Failed"]));
    reflexivity.
Defined.

(** X11.  [pair] swallows a refused [Connect()] and [unpair] does not
    swallow a refused [Disconnect()]: against a service that refuses every
    request on the device with some message, a [pair] that gets its answer
    logs the refusal and hands back [None], and the [unpair] that follows
    raises [DBusException] with that message after its one request, leaving
    the rest of the state as it was. *)
Theorem pair_swallows_unpair_raises :
  forall r self w msg,
    timers w = [] ->
    pending w = [] ->
    (exists ev, In ev (inbox w) /\ reply_record self ev <> None) ->
    (forall t m, method_fault r t (device_path self) DEVICE_IFACE m = Some msg) ->
    exists w1,
      pair r self w = (Ret PyNone, w1)
      /\ In (ALog ERROR (FailedToConnect msg)) (trace w1)
      /\ unpair r self w1
         = (Raise (DBusException msg),
            extend [ACall (device_path self) DEVICE_IFACE Disconnect] w1).
Proof.
  intros r self w msg Hts Hps (ev & Hev & Hrep) Hfault.
  destruct (inbox_split self (inbox w))
    as [Hnone|(prefix & reply & rest & rec & Hin & HF & Hr)].
  { exfalso. rewrite Forall_forall in Hnone. now apply Hrep, Hnone. }
  assert (Hinert : Forall (fun ev =>
                             inert (timers w)
                                   (pending w ++ [device_path self])
                                   ev = true) prefix).
  { rewrite Hts, Hps. cbn [app].
    eapply Forall_impl; [|exact HF]. intros e. apply no_reply_inert. }
  pose proof (pair_run r self w prefix reply rest rec Hinert Hr Hin) as Hrun.
  cbv zeta in Hrun.
  eexists. split; [exact Hrun|].
  split.
  - cbn [trace]. unfold connect_actions. rewrite Hfault.
    apply in_or_app. right. cbn. auto.
  - unfold unpair, bind, call. now rewrite Hfault.
Qed.

Lemma pair_swallows_unpair_raises_witness :
  exists w1,
    pair (refusing_remote keyboard_catalog) (mkBtDevice dev_A)
         (fresh [MethodReturn dev_A])
    = (Ret PyNone, w1)
    /\ In (ALog ERROR (FailedToConnect "org.bluez.Error.Failed")) (trace w1)
    /\ unpair (refusing_remote keyboard_catalog) (mkBtDevice dev_A) w1
       = (Raise (DBusException "org.bluez.Error.Failed"),
          extend [ACall dev_A DEVICE_IFACE Disconnect] w1).
Proof.
  apply (pair_swallows_unpair_raises (refusing_remote keyboard_catalog)
           (mkBtDevice dev_A) (fresh [MethodReturn dev_A])
           "org.bluez.Error.Failed").
  - reflexivity.
  - reflexivity.
  - exists (MethodReturn dev_A). split; [simpl; auto|discriminate].
  - reflexivity.
Defined.

(** ** Scanning: every way a call can end *)

Lemma for_each_cons :
  forall (A : Type) (x : A) xs (body : A -> M unit) w,
    for_each (x :: xs) body w
    = match body x w with
      | (Ret _, w') => for_each xs body w'
      | (Raise e, w') => (Raise e, w')
      | (Blocked, w') => (Blocked, w')
      end.
Proof. reflexivity. Qed.

Lemma call_any :
  forall r path iface m w,
    call r path iface m w = (Ret tt, extend [ACall path iface m] w)
    \/ exists msg,
        call r path iface m w
        = (Raise (DBusException msg), extend [ACall path iface m] w).
Proof.
  intros r path iface m w. unfold call.
  destruct (method_fault r (trace w) path iface m) as [msg|];
    [right; exists msg|left]; reflexivity.
Qed.

Lemma restart_discovery_any :
  forall r a w,
    restart_discovery r a w = (Ret tt, extend (restart_actions [a]) w)
    \/ exists msg,
        restart_discovery r a w
        = (Raise (DBusException msg), extend (restart_actions [a]) w).
Proof.
  intros r a w. unfold restart_discovery, bind, try_except.
  destruct (call_any r a ADAPTER_IFACE StopDiscovery w) as [->|[m ->]];
    unfold ret;
    destruct (call_any r a ADAPTER_IFACE StartDiscovery
                       (extend [ACall a ADAPTER_IFACE StopDiscovery] w))
      as [->|[msg ->]];
    [left|right; exists msg|left|right; exists msg];
    rewrite extend_extend; reflexivity.
Qed.

Lemma restart_all_any :
  forall r adapters w,
    exists added,
      count is_loop_run added = 0%nat
      /\ (for_each adapters (restart_discovery r) w = (Ret tt, extend added w)
          \/ exists msg,
              for_each adapters (restart_discovery r) w
              = (Raise (DBusException msg), extend added w)).
Proof.
  intros r adapters; induction adapters as [|a adapters IH]; intros w.
  - exists []. split; [reflexivity|]. left. cbn. unfold ret.
    now rewrite extend_nil.
  - rewrite for_each_cons.
    destruct (restart_discovery_any r a w) as [->|[msg ->]].
    + destruct (IH (extend (restart_actions [a]) w)) as (added & Hc & Hr).
      exists (restart_actions [a] ++ added).
      split; [rewrite count_app, Hc; reflexivity|].
      rewrite <- extend_extend.
      destruct Hr as [->|[msg ->]]; [left|right; exists msg]; reflexivity.
    + exists (restart_actions [a]). split; [reflexivity|].
      right. exists msg. reflexivity.
Qed.

Lemma stop_all_any :
  forall r adapters w,
    exists added,
      for_each adapters
               (fun adapter => call r adapter ADAPTER_IFACE StopDiscovery) w
      = (Ret tt, extend added w)
      \/ exists msg,
          for_each adapters
                   (fun adapter => call r adapter ADAPTER_IFACE StopDiscovery) w
          = (Raise (DBusException msg), extend added w).
Proof.
  intros r adapters; induction adapters as [|a adapters IH]; intros w.
  - exists []. left. cbn. unfold ret. now rewrite extend_nil.
  - rewrite for_each_cons.
    destruct (call_any r a ADAPTER_IFACE StopDiscovery w) as [->|[msg ->]].
    + destruct (IH (extend [ACall a ADAPTER_IFACE StopDiscovery] w))
        as (added & Hr).
      exists ([ACall a ADAPTER_IFACE StopDiscovery] ++ added).
      rewrite <- extend_extend.
      destruct Hr as [->|[msg ->]]; [left|right; exists msg]; reflexivity.
    + exists [ACall a ADAPTER_IFACE StopDiscovery]. right. exists msg.
      reflexivity.
Qed.

Lemma _scan_timeout_any :
  forall r w,
    exists added,
      _scan_timeout r w = (Ret tt, set_running false (extend added w))
      \/ exists msg,
          _scan_timeout r w = (Raise (DBusException msg), extend added w).
Proof.
  intros r w.
  unfold _scan_timeout, _get_objects_by_iface, bind at 1 2.
  unfold ObjectManager_GetManagedObjects, ret, bind.
  destruct (stop_all_any r
              (paths_by_iface ADAPTER_IFACE (GetManagedObjects r (trace w)))
              (emit_w AGetManagedObjects w)) as (added & [->|[msg ->]]).
  - exists ([AGetManagedObjects] ++ added ++ [ALoopQuit]). left.
    unfold main_loop_quit, set_running, extend, emit_w. cbn.
    now rewrite <- !app_assoc.
  - exists ([AGetManagedObjects] ++ added). right. exists msg.
    unfold extend, emit_w. cbn. now rewrite <- !app_assoc.
Qed.

Lemma inert_when_idle :
  forall ev, inert [] [] ev = true.
Proof. intros []; reflexivity. Qed.

(** With nothing armed and nothing pending, nothing can stop the loop. *)
Lemma loop_idle_blocked :
  forall r events w,
    timers w = [] ->
    pending w = [] ->
    running w = true ->
    fst (loop_iterate r events w) = Blocked.
Proof.
  intros r events w Hts Hps Hrun.
  rewrite <- (app_nil_r events).
  rewrite loop_inert.
  - reflexivity.
  - rewrite Hts, Hps. apply Forall_forall. intros ev _.
    apply inert_when_idle.
  - assumption.
Qed.

Lemma timeout_split :
  forall n events,
    Forall (fun ev => ev <> TimeoutDue n) events
    \/ exists prefix rest,
        events = prefix ++ TimeoutDue n :: rest
        /\ Forall (fun ev => ev <> TimeoutDue n) prefix.
Proof.
  intros n events; induction events as [|ev events IH].
  - left. constructor.
  - assert (Hdec : ev = TimeoutDue n \/ ev <> TimeoutDue n).
    { destruct ev as [| |id| |]; try (right; discriminate).
      destruct (Nat.eq_dec id n) as [->|Hne]; [now left|].
      right. intros H. inversion H. contradiction. }
    destruct Hdec as [->|Hne].
    + right. exists [], events. split; [reflexivity|constructor].
    + destruct IH as [IH|(prefix & rest & -> & HF)].
      * left. now constructor.
      * right. exists (ev :: prefix), rest. split; [reflexivity|].
        now constructor.
Qed.

(** X12.  On a manager between calls, whatever the remote service does, a
    scan ends in one of three ways.  It raises [DBusException] from a
    refused [StartDiscovery]: then the loop was not entered and no timer is
    left armed, but the two subscriptions it made stay.  Or it hands back
    [None]: then its timer came due, and the manager is between calls again
    with the two subscriptions added.  Or it stays blocked.  No other
    exception can leave it. *)
Theorem scan_outcomes :
  forall r timeout w,
    timers w = [] ->
    pending w = [] ->
    (exists msg w',
        scan r timeout w = (Raise (DBusException msg), w')
        /\ receivers w'
           = receivers w ++ [rc_interfaces_added; rc_properties_changed]
        /\ timers w' = []
        /\ pending w' = []
        /\ inbox w' = inbox w
        /\ running w' = running w
        /\ count is_loop_run (trace w') = count is_loop_run (trace w))
    \/ (exists w',
           scan r timeout w = (Ret PyNone, w')
           /\ In (TimeoutDue (next_source_id w)) (inbox w)
           /\ receivers w'
              = receivers w ++ [rc_interfaces_added; rc_properties_changed]
           /\ timers w' = []
           /\ pending w' = []
           /\ running w' = false)
    \/ fst (scan r timeout w) = Blocked.
Proof.
  intros r timeout [t q rs ts n ps b] Hts Hps.
  cbn [trace inbox receivers timers next_source_id pending running] in *.
  subst ts ps.
  cbv [scan bind add_signal_receiver _get_objects_by_iface
       ObjectManager_GetManagedObjects ret emit_w
       trace inbox receivers timers next_source_id pending running].
  match goal with
  | |- context [for_each ?l (restart_discovery r) ?w0] =>
      destruct (restart_all_any r l w0) as (added & Hc & [E|[msg E]]);
      rewrite E; clear E
  end.
  - right.
    cbv [timeout_add_seconds main_loop_run emit_w set_running extend bind
         trace inbox receivers timers next_source_id pending running].
    cbn [app].
    destruct (timeout_split n q) as [Hnone|(prefix & rest & -> & HF)].
    + right. rewrite <- (app_nil_r q).
      rewrite loop_inert.
      * reflexivity.
      * cbn [timers pending]. eapply Forall_impl; [|exact Hnone].
        intros e. apply not_due_inert.
      * reflexivity.
    + rewrite loop_inert.
      2:{ cbn [timers pending]. eapply Forall_impl; [|exact HF].
          intros e. apply not_due_inert. }
      2:{ reflexivity. }
      cbn [loop_iterate]. unfold dispatch.
      cbv [set_inbox extend mem_nat existsb
           trace inbox receivers timers next_source_id pending running].
      rewrite Nat.eqb_refl. cbn [orb].
      match goal with
      | |- context [_scan_timeout r ?w0] =>
          destruct (_scan_timeout_any r w0) as (stops & [E|[msg E]]);
          rewrite E; clear E
      end.
      * left. eexists. split; [reflexivity|].
        split; [apply in_elt|].
        cbv [disarm set_timers set_running extend
             trace inbox receivers timers next_source_id pending running].
        cbn [filter]. rewrite Nat.eqb_refl. cbn [negb].
        repeat split. now rewrite <- app_assoc.
      * right.
        cbv [disarm set_timers emit_w extend
             trace inbox receivers timers next_source_id pending running].
        cbn [filter]. rewrite Nat.eqb_refl. cbn [negb].
        match goal with
        | |- context [loop_iterate r rest ?w0] =>
            pose proof (loop_idle_blocked r rest w0 eq_refl eq_refl eq_refl)
              as Hb;
            destruct (loop_iterate r rest w0) as [o w']
        end.
        cbn [fst] in Hb. subst o. reflexivity.
  - left. exists msg. eexists. split; [reflexivity|].
    cbv [extend trace inbox receivers timers next_source_id pending running].
    repeat split.
    + now rewrite <- app_assoc.
    + rewrite !count_app, Hc. cbn. lia.
Qed.

Lemma scan_outcomes_witness :
  (exists msg w',
      scan start_failing_remote 5 (fresh [TimeoutDue 1])
      = (Raise (DBusException msg), w')
      /\ receivers w' = [] ++ [rc_interfaces_added; rc_properties_changed]
      /\ timers w' = []
      /\ pending w' = []
      /\ inbox w' = [TimeoutDue 1]
      /\ running w' = false
      /\ count is_loop_run (trace w') = 0%nat)
  \/ (exists w',
         scan start_failing_remote 5 (fresh [TimeoutDue 1]) = (Ret PyNone, w')
         /\ In (TimeoutDue 1) [TimeoutDue 1]
         /\ receivers w' = [] ++ [rc_interfaces_added; rc_properties_changed]
         /\ timers w' = []
         /\ pending w' = []
         /\ running w' = false)
  \/ fst (scan start_failing_remote 5 (fresh [TimeoutDue 1])) = Blocked.
Proof.
  apply (scan_outcomes start_failing_remote 5 (fresh [TimeoutDue 1]));
    reflexivity.
Defined.

(** ** A scan followed by a pairing *)

(** X13.  A scan and then a pairing on the same manager: the scan returns
    when its timer comes due, and the pairing that follows returns on the
    first answer to its own [Pair] request and on nothing else.  In
    particular the timer of the finished scan is gone, so a late wake-up for
    it does not end the wait.  The subscriptions of the scan are still
    there: signals that arrive while pairing are logged by its handlers. *)
Theorem scan_then_pair :
  forall r timeout self w during waiting reply rest rec,
    timers w = [] ->
    pending w = [] ->
    Forall (fun ev => ev <> TimeoutDue (next_source_id w)) during ->
    Forall (fun ev => reply_record self ev = None) waiting ->
    reply_record self reply = Some rec ->
    inbox w = during ++ TimeoutDue (next_source_id w)
                :: waiting ++ reply :: rest ->
    (forall t p, method_fault r t p ADAPTER_IFACE StartDiscovery = None) ->
    (forall t p,
        In ALoopRun t ->
        method_fault r (trace w ++ t) p ADAPTER_IFACE StopDiscovery = None) ->
    exists w1 w2 connected,
      scan r timeout w = (Ret PyNone, w1)
      /\ pair r self w1 = (Ret PyNone, w2)
      /\ trace w2
         = trace w1
             ++ [APairAsync (device_path self); ALoopRun]
             ++ signal_log
                  (receivers w ++ [rc_interfaces_added; rc_properties_changed])
                  waiting
             ++ [rec; ALoopQuit]
             ++ ACall (device_path self) DEVICE_IFACE Connect :: connected
      /\ inbox w2 = rest
      /\ timers w2 = []
      /\ pending w2 = []
      /\ running w2 = false.
Proof.
  intros r timeout self w during waiting reply rest rec
         Hts Hps HF1 HF2 Hrec Hin Hstart Hstop.
  pose proof (scan_run r timeout w during _
                (idle_scan_prefix w during Hts Hps HF1) Hin Hstart Hstop)
    as Hrun1.
  rewrite Hts, Hps in Hrun1. cbn [app filter] in Hrun1.
  rewrite Nat.eqb_refl in Hrun1. cbn [negb] in Hrun1.
  match type of Hrun1 with _ = (_, ?x) => set (w1 := x) in * end.
  assert (HF : Forall (fun ev =>
                         inert (timers w1) (pending w1 ++ [device_path self])
                               ev = true) waiting).
  { subst w1. cbn [timers pending app].
    eapply Forall_impl; [|exact HF2]. intros e. apply no_reply_inert. }
  pose proof (pair_run r self w1 waiting reply rest rec HF Hrec eq_refl)
    as Hrun2.
  cbv zeta in Hrun2.
  eexists w1, _, _. split; [exact Hrun1|]. split; [exact Hrun2|].
  subst w1. cbn [trace inbox timers pending running receivers].
  unfold connect_actions.
  split; [rewrite <- !app_assoc; reflexivity|].
  repeat split.
  cbn [app remove_first]. now rewrite String.eqb_refl.
Qed.

Lemma scan_then_pair_witness :
  exists w1 w2 connected,
    scan (steady keyboard_catalog) 5
         (fresh [keyboard_added; TimeoutDue 1; paired_changed; TimeoutDue 1;
                 MethodReturn dev_A])
    = (Ret PyNone, w1)
    /\ pair (steady keyboard_catalog) (mkBtDevice dev_A) w1 = (Ret PyNone, w2)
    /\ trace w2
       = trace w1
           ++ [APairAsync dev_A; ALoopRun]
           ++ signal_log ([] ++ [rc_interfaces_added; rc_properties_changed])
                         [paired_changed; TimeoutDue 1]
           ++ [ALog INFO (SuccessfullyPaired dev_A); ALoopQuit]
           ++ ACall dev_A DEVICE_IFACE Connect :: connected
    /\ inbox w2 = []
    /\ timers w2 = []
    /\ pending w2 = []
    /\ running w2 = false.
Proof.
  apply (scan_then_pair (steady keyboard_catalog) 5 (mkBtDevice dev_A)
           (fresh [keyboard_added; TimeoutDue 1; paired_changed; TimeoutDue 1;
                   MethodReturn dev_A])
           [keyboard_added] [paired_changed; TimeoutDue 1]
           (MethodReturn dev_A) []
           (ALog INFO (SuccessfullyPaired dev_A))).
  - reflexivity.
  - reflexivity.
  - constructor; [discriminate|constructor].
  - repeat constructor.
  - reflexivity.
  - reflexivity.
  - reflexivity.
  - reflexivity.
Defined.

(** ** Which signals the subscriptions of a scan let through *)

(** X14.  With only the subscriptions that [scan] makes, a
    [PropertiesChanged] signal about an interface other than
    [org.bluez.Device1] reaches no handler: nothing is logged and nothing
    else changes. *)
Theorem foreign_properties_changed_ignored :
  forall r w interface changed invalidated path,
    (forall rc, In rc (receivers w) ->
                rc = rc_interfaces_added \/ rc = rc_properties_changed) ->
    interface <> DEVICE_IFACE ->
    dispatch r (SigPropertiesChanged interface changed invalidated path) w
    = (Ret tt, w).
Proof.
  intros r w interface changed invalidated path Hrcs Hne.
  unfold dispatch.
  assert (Hnone : filter (receiver_matches
                            (SigPropertiesChanged interface changed
                                                  invalidated path))
                         (receivers w) = []).
  { induction (receivers w) as [|rc rcs IH]; [reflexivity|].
    cbn [filter].
    assert (Hrc : receiver_matches
                    (SigPropertiesChanged interface changed invalidated path)
                    rc = false).
    { destruct (Hrcs rc (or_introl eq_refl)) as [->| ->].
      - reflexivity.
      - unfold receiver_matches, rc_properties_changed, arg0_matches.
        cbn [rc_interface rc_signal rc_arg0].
        destruct (String.eqb_spec "org.bluez.Device1" interface) as [E|_].
        + exfalso. apply Hne. now rewrite <- E.
        + now rewrite andb_false_r. }
    rewrite Hrc. apply IH. intros rc' Hin. apply Hrcs. now right. }
  rewrite Hnone. reflexivity.
Qed.

Lemma foreign_properties_changed_ignored_witness :
  dispatch (steady keyboard_catalog)
           (SigPropertiesChanged ADAPTER_IFACE [("Discovering", VBool true)]
                                 [] hci0)
           (snd (scan (steady keyboard_catalog) 5 (fresh [TimeoutDue 1])))
  = (Ret tt, snd (scan (steady keyboard_catalog) 5 (fresh [TimeoutDue 1]))).
Proof.
  apply (foreign_properties_changed_ignored (steady keyboard_catalog)
           (snd (scan (steady keyboard_catalog) 5 (fresh [TimeoutDue 1])))
           ADAPTER_IFACE [("Discovering", VBool true)] [] hci0).
  - intros rc [<-|[<-|[]]]; auto.
  - discriminate.
Defined.

(** X15.  A signal that an object gained interfaces is logged whatever the
    object is: the subscription [scan] makes for [InterfacesAdded] carries no
    filter, so adapters and other objects are reported like devices. *)
Theorem interfaces_added_always_logged :
  forall r w path interfaces,
    In rc_interfaces_added (receivers w) ->
    exists added,
      dispatch r (SigInterfacesAdded path interfaces) w
      = (Ret tt, extend added w)
      /\ In (ALog INFO (AddedInterfaces interfaces path)) added.
Proof.
  intros r w path interfaces Hin.
  rewrite dispatch_inert by reflexivity.
  eexists. split; [reflexivity|].
  unfold signal_log. cbn [flat_map]. rewrite app_nil_r.
  apply in_flat_map. exists rc_interfaces_added. split.
  - apply filter_In. split; [assumption|reflexivity].
  - cbn. auto.
Qed.

Lemma interfaces_added_always_logged_witness :
  exists added,
    dispatch (steady keyboard_catalog)
             (SigInterfacesAdded hci1 [(ADAPTER_IFACE, adapter_props false)])
             (snd (scan (steady keyboard_catalog) 5 (fresh [TimeoutDue 1])))
    = (Ret tt,
       extend added
              (snd (scan (steady keyboard_catalog) 5 (fresh [TimeoutDue 1]))))
    /\ In (ALog INFO (AddedInterfaces [(ADAPTER_IFACE, adapter_props false)]
                                      hci1)) added.
Proof.
  apply (interfaces_added_always_logged (steady keyboard_catalog)
           (snd (scan (steady keyboard_catalog) 5 (fresh [TimeoutDue 1])))
           hci1 [(ADAPTER_IFACE, adapter_props false)]).
  cbn. auto.
Defined.

(** ** What a rejected device leaves in the log *)

(** X16.  The class is looked at before the filters.  For a class other
    than the wildcard, a device without a ["Class"] property is passed over
    with one info record naming ["Class"], and a device of another class is
    passed over silently; in both cases the filters are not consulted, so
    properties they name and the device lacks go unreported. *)
Theorem class_checked_before_filters :
  forall device obj category filters w,
    category <> BT_ANY ->
    (dict_get obj "Class" = None ->
     filter_device device obj category filters w
     = (Ret false, extend [ALog INFO (PropertyNotFound "Class" device)] w))
    /\ (forall c,
           dict_get obj "Class" = Some c ->
           py_eq c (VInt category) = false ->
           filter_device device obj category filters w = (Ret false, w)).
Proof.
  intros device obj category filters w Hcat.
  apply Z.eqb_neq in Hcat.
  unfold filter_device, try_except, lift, filter_body, dict_index.
  rewrite Hcat. cbn [negb]. split.
  - intros ->. reflexivity.
  - intros c -> Hc. unfold py_ne. rewrite Hc. reflexivity.
Qed.

Lemma class_checked_before_filters_witness :
  (dict_get [("Name", VStr "Tag")] "Class" = None ->
   filter_device dev_B [("Name", VStr "Tag")] BT_KEYBOARD
                 [("Paired", VBool true)] (fresh [])
   = (Ret false,
      extend [ALog INFO (PropertyNotFound "Class" dev_B)] (fresh [])))
  /\ (forall c,
         dict_get [("Name", VStr "Tag")] "Class" = Some c ->
         py_eq c (VInt BT_KEYBOARD) = false ->
         filter_device dev_B [("Name", VStr "Tag")] BT_KEYBOARD
                       [("Paired", VBool true)] (fresh [])
         = (Ret false, fresh [])).
Proof.
  apply (class_checked_before_filters dev_B [("Name", VStr "Tag")]
           BT_KEYBOARD [("Paired", VBool true)] (fresh [])).
  discriminate.
Defined.

Lemma filters_rejected_first_missing :
  forall obj filters pre k post,
    (forall k', In k' pre ->
       exists x v, dict_get obj k' = Some x /\ dict_get filters k' = Some v
                   /\ py_eq x v = true) ->
    dict_get obj k = None ->
    filters_rejected obj filters (pre ++ k :: post) = inl (KeyError k).
Proof.
  intros obj filters pre k post; induction pre as [|k0 pre IH];
    intros Hpre Hk; cbn [app filters_rejected]; unfold dict_index.
  - now rewrite Hk.
  - destruct (Hpre k0 (or_introl eq_refl)) as (x & v & -> & -> & Heq).
    unfold py_ne. rewrite Heq. cbn [negb].
    apply IH; [|assumption]. intros k' Hin. apply Hpre. now right.
Qed.

(** X17.  With the wildcard class, when the filters that come before some
    key all match and the device lacks that key, the device is passed over
    with one info record naming exactly that key; the filters after it are
    not consulted. *)
Theorem first_missing_property_reported :
  forall device obj filters pre k post w,
    dict_keys filters = pre ++ k :: post ->
    (forall k', In k' pre ->
       exists x v, dict_get obj k' = Some x /\ dict_get filters k' = Some v
                   /\ py_eq x v = true) ->
    dict_get obj k = None ->
    filter_device device obj BT_ANY filters w
    = (Ret false, extend [ALog INFO (PropertyNotFound k device)] w).
Proof.
  intros device obj filters pre k post w Hkeys Hpre Hk.
  unfold filter_device, try_except, lift, filter_body.
  cbn [Z.eqb BT_ANY negb]. rewrite Hkeys.
  now rewrite (filters_rejected_first_missing obj filters pre k post Hpre Hk).
Qed.

Lemma first_missing_property_reported_witness :
  filter_device dev_A keyboard_props BT_ANY
                [("Paired", VBool false); ("Connected", VBool true);
                 ("Trusted", VBool true)] (fresh [])
  = (Ret false,
     extend [ALog INFO (PropertyNotFound "Connected" dev_A)] (fresh [])).
Proof.
  apply (first_missing_property_reported dev_A keyboard_props
           [("Paired", VBool false); ("Connected", VBool true);
            ("Trusted", VBool true)]
           ["Paired"] "Connected" ["Trusted"] (fresh [])).
  - reflexivity.
  - intros k' [<-|[]]. exists (VBool false), (VBool false).
    repeat split; reflexivity.
  - reflexivity.
Defined.
